(** * Elemental Conductor provider: job builder and status normaliser

    A shallow embedding of [provider/elementalconductor/elementalconductor.go]
    and of the factory of [provider/mediaconvert/aws.go].

    Go strings are byte sequences, modelled as [string] (a list of 8-bit
    [ascii]); Go [int] is modelled as [Z]; slices as [list]; the
    [map[string]interface{}] of the status detail as a [gmap string Value];
    a pointer result returned next to an [error] as a pair of options; a
    run-time panic as the [Panic] outcome of the [result] monad. *)

From Stdlib Require Import ZArith Ascii String List Bool Lia.
From stdpp Require Import gmap strings list fin_maps.

Import ListNotations.
Local Open Scope string_scope.
Local Open Scope Z_scope.

(** ** Outcomes of Go code that may panic *)

Inductive result (A : Type) : Type :=
| Ok (a : A)
| Panic (msg : string).
Arguments Ok {A} a.
Arguments Panic {A} msg.

Definition bind {A B : Type} (m : result A) (k : A -> result B) : result B :=
  match m with
  | Ok a => k a
  | Panic msg => Panic msg
  end.

Notation "'let*' x ':=' m 'in' k" := (bind m (fun x => k))
  (at level 10, x name, m at level 100, k at level 200).

(** [a[i]]: indexing a slice panics out of range. *)
Definition sliceIndex {A : Type} (a : list A) (i : Z) : result A :=
  if (i <? 0) || (Z.of_nat (List.length a) <=? i) then Panic "index out of range"
  else match a !! Z.to_nat i with
       | Some x => Ok x
       | None => Panic "index out of range"
       end.

(** ** Calls into the client libraries made while a provider is built *)

Inductive Call : Type :=
| CallNewClient
| CallNewStaticCredentials
| CallNewConfig
| CallWithCredentials
| CallWithRegion
| CallNewSession
| CallMediaConvertNew.

Definition traced (A : Type) : Type := (A * list Call)%type.

Definition ret {A : Type} (a : A) : traced A := (a, []).

Definition call {A : Type} (c : Call) (a : A) : traced A := (a, [c]).

Definition bindT {A B : Type} (m : traced A) (k : A -> traced B) : traced B :=
  let '(a, t) := m in
  let '(b, t') := k a in
  (b, (t ++ t')%list).

Notation "'let+' x ':=' m 'in' k" := (bindT m (fun x => k))
  (at level 10, x name, m at level 100, k at level 200).

(** ** The Go library functions the provider calls *)

Module strconv.

Definition digit (d : Z) : ascii := ascii_of_nat (48 + Z.to_nat d).

(** The digit loop of [strconv.formatBits] in base 10: digits are
    produced from the least significant one and written right to left. *)
Fixpoint formatBits (fuel : nat) (u : Z) (acc : string) : string :=
  match fuel with
  | O => acc
  | S fuel' =>
      if u <? 10 then String (digit u) acc
      else formatBits fuel' (u / 10) (String (digit (u mod 10)) acc)
  end.

Definition formatUint (u : Z) : string :=
  formatBits (S (Z.to_nat (Z.log2 u))) u "".

(** [strconv.Itoa]: decimal, with a leading minus sign below zero. *)
Definition Itoa (i : Z) : string :=
  if i <? 0 then String "-" (formatUint (- i)) else formatUint i.

(** Reading a run of decimal digits back, most significant first. *)
Fixpoint digitsValue (s : string) (acc : Z) : Z :=
  match s with
  | EmptyString => acc
  | String c s' => digitsValue s' (acc * 10 + (Z.of_nat (nat_of_ascii c) - 48))
  end.

End strconv.

Module strings.

Definition isUpperASCII (c : ascii) : bool :=
  let n := nat_of_ascii c in (65 <=? n)%nat && (n <=? 90)%nat.

(** [utf8.RuneSelf] is 0x80: bytes below it are single-byte runes. *)
Definition isRuneSelf (c : ascii) : bool := (128 <=? nat_of_ascii c)%nat.

Fixpoint isASCII (s : string) : bool :=
  match s with
  | EmptyString => true
  | String c s' => negb (isRuneSelf c) && isASCII s'
  end.

Definition lowerByte (c : ascii) : ascii :=
  if isUpperASCII c then ascii_of_nat (nat_of_ascii c + 32) else c.

Fixpoint lowerASCII (s : string) : string :=
  match s with
  | EmptyString => EmptyString
  | String c s' => String (lowerByte c) (lowerASCII s')
  end.

(** [strings.ToLower]: the ASCII-only path is spelled out; for a string
    holding a byte of a multi-byte rune Go calls
    [strings.Map(unicode.ToLower, s)], whose Unicode case tables are not
    part of the repository and are taken as the parameter [mapLower]. *)
Definition ToLower (mapLower : string -> string) (s : string) : string :=
  if isASCII s then lowerASCII s else mapLower s.

(** [strings.Split(s, sep)] for a one-byte separator: the pieces between
    the occurrences of [sep], always at least one piece. *)
Fixpoint Split (s : string) (sep : ascii) : list string :=
  match s with
  | EmptyString => [EmptyString]
  | String c s' =>
      if Ascii.eqb c sep then EmptyString :: Split s' sep
      else match Split s' sep with
           | piece :: pieces => String c piece :: pieces
           | [] => [String c EmptyString]
           end
  end.

(** [strings.TrimRight(s, cutset)] for a one-byte cutset
    ([trimRightByte]): drop the bytes equal to [c] at the end. *)
Fixpoint TrimRight (s : string) (c : ascii) : string :=
  match s with
  | EmptyString => EmptyString
  | String a s' =>
      match TrimRight s' c with
      | EmptyString => if Ascii.eqb a c then EmptyString else String a EmptyString
      | String _ _ as r => String a r
      end
  end.

Definition HasSuffix (s suffix : string) : bool :=
  let n := String.length s in
  let k := String.length suffix in
  (k <=? n)%nat && String.eqb (substring (n - k) k s) suffix.

Definition TrimSuffix (s suffix : string) : string :=
  if HasSuffix s suffix
  then substring 0 (String.length s - String.length suffix) s
  else s.

End strings.

Module filepath.

(** [os.IsPathSeparator] on Unix. *)
Definition IsPathSeparator (c : ascii) : bool := Ascii.eqb c "/".

(** The loop of [filepath.Ext]:
    [for i := len(path) - 1; i >= 0 && !os.IsPathSeparator(path[i]); i--],
    with [n = i + 1]. *)
Fixpoint Ext_loop (path : string) (n : nat) : string :=
  match n with
  | O => EmptyString
  | S i =>
      match String.get i path with
      | Some c =>
          if IsPathSeparator c then EmptyString
          else if Ascii.eqb c "." then substring i (String.length path - i) path
          else Ext_loop path i
      | None => EmptyString
      end
  end.

Definition Ext (path : string) : string := Ext_loop path (String.length path).

End filepath.

(** ** The client library's wire types

    Struct fields are named [Struct_Field] throughout, since Go reuses
    field names ([Order], [Name], [Destination], [Status]) across structs
    and for types. *)

Module wire.

Record Location : Type := {
  Location_URI : string;
  Location_Username : string;
  Location_Password : string }.

Record Output : Type := {
  Output_StreamAssemblyName : string;
  Output_Order : Z;
  Output_Extension : string }.

Record StreamAssembly : Type := {
  StreamAssembly_Name : string;
  StreamAssembly_Preset : string }.

Record Input : Type := { Input_FileInput : Location }.

Record FileGroupSettings : Type := { FileGroupSettings_Destination : Location }.

Record OutputGroup : Type := {
  OutputGroup_Order : Z;
  OutputGroup_FileGroupSettings : FileGroupSettings;
  OutputGroup_Type : string;
  OutputGroup_Output : list Output }.

(** [DateTime] embeds a [time.Time]; [IsZero] holds of the zero instant
    only (seconds and nanoseconds both zero). *)
Record DateTime : Type := { sec : Z; nsec : Z }.

Definition IsZero (t : DateTime) : bool := (sec t =? 0) && (nsec t =? 0).

Record JobError : Type := { JobError_Code : Z; JobError_Message : string }.

(** The job as sent and as answered; its four time fields, [Submitted]
    included, are [DateTime]s in the client library. *)
Record Job : Type := {
  Job_Href : string;
  Job_Input : Input;
  Job_Priority : Z;
  Job_OutputGroup : OutputGroup;
  Job_StreamAssembly : list StreamAssembly;
  Job_Status : string;
  Job_Submitted : DateTime;
  Job_StartTime : DateTime;
  Job_CompleteTime : DateTime;
  Job_ErroredTime : DateTime;
  Job_PercentComplete : Z;
  Job_ErrorMessages : list JobError }.

Definition zeroTime : DateTime := {| sec := 0; nsec := 0 |}.

(** The client handle built by [NewClient]. *)
Record Client : Type := {
  Client_Host : string;
  Client_UserLogin : string;
  Client_APIKey : string;
  Client_AuthExpires : Z;
  Client_AccessKeyID : string;
  Client_SecretAccessKey : string;
  Client_Destination : string }.

Definition NewClient (host userLogin apiKey : string) (authExpires : Z)
    (accessKeyID secretAccessKey destination : string) : Client :=
  {| Client_Host := host;
     Client_UserLogin := userLogin;
     Client_APIKey := apiKey;
     Client_AuthExpires := authExpires;
     Client_AccessKeyID := accessKeyID;
     Client_SecretAccessKey := secretAccessKey;
     Client_Destination := destination |}.

End wire.


(** ** The [provider] package: canonical statuses, errors, job status *)

Module provider.

(** [provider.Status] and its six constants. *)
Inductive Status : Type :=
| StatusQueued
| StatusStarted
| StatusFinished
| StatusCanceled
| StatusFailed
| StatusArchived.

(** A Go [error] value, by its dynamic type: [provider.InvalidConfigError]
    (a string type), the value built by [errors.New], or an error of any
    other type handed back by a client library. *)
Inductive error : Type :=
| InvalidConfigError (msg : string)
| errors_New (text : string)
| foreignError (text : string).

(** A value stored under [interface{}] in the status detail. *)
Inductive Value : Type :=
| VString (s : string)
| VDateTime (t : wire.DateTime)
| VJobErrors (errs : list wire.JobError).

(** [provider.JobStatus]; a nil [ProviderStatus] map is [None]. *)
Record JobStatus : Type := {
  JobStatus_ProviderName : string;
  JobStatus_ProviderJobID : string;
  JobStatus_Status : Status;
  JobStatus_ProviderStatus : option (gmap string Value) }.

End provider.



(** ** The [config] package *)

Module config.

Record ElementalConductor : Type := {
  ElementalConductor_Host : string;
  ElementalConductor_UserLogin : string;
  ElementalConductor_APIKey : string;
  ElementalConductor_AuthExpires : Z;
  ElementalConductor_AccessKeyID : string;
  ElementalConductor_SecretAccessKey : string;
  ElementalConductor_Destination : string }.

Record MediaConvert : Type := {
  MediaConvert_AccessKeyID : string;
  MediaConvert_SecretAccessKey : string;
  MediaConvert_Region : string }.

(** The Media Convert section is held through a pointer, which the
    provider keeps: an absent section is [None]. *)
Record Config : Type := {
  Config_ElementalConductor : ElementalConductor;
  Config_MediaConvert : option MediaConvert }.

End config.

(** ** The provider *)

Module elementalconductor.
Import wire.

Definition Name : string := "elementalconductor".

Definition defaultJobPriority : Z := 50.
Definition defaultOutputGroupOrder : Z := 1.
Definition defaultExtension : string := ".mp4".

Definition errElementalConductorInvalidConfig : provider.error :=
  provider.InvalidConfigError "missing Elemental user login or api key. Please define the environment variables ELEMENTALCONDUCTOR_USER_LOGIN and ELEMENTALCONDUCTOR_API_KEY or set these values in the configuration file".

Record elementalConductorProvider : Type := {
  config : config.Config;
  client : Client }.

(** What a call of the client answers: the pointer and the error that
    [PostJob] and [GetJob] return, either of which may be nil. The
    network is outside the program, so the answers are a parameter, as is
    [GetID], which reads the job id off the response. *)
Record Backend : Type := {
  PostJob : Client -> Job -> option Job * option provider.error;
  GetJob : Client -> string -> option Job * option provider.error;
  GetID : Job -> string }.

(** The body of the [range] loop, with the two slices it appends to. *)
Fixpoint rangePresets (index : Z) (presets : list string)
    (outputList : list Output) (streamAssemblyList : list StreamAssembly)
    : list Output * list StreamAssembly :=
  match presets with
  | [] => (outputList, streamAssemblyList)
  | preset :: rest =>
      let indexString := strconv.Itoa index in
      let streamAssemblyName := "stream_" ++ indexString in
      let output :=
        {| Output_StreamAssemblyName := streamAssemblyName;
           Output_Order := index;
           Output_Extension := defaultExtension |} in
      let streamAssembly :=
        {| StreamAssembly_Name := streamAssemblyName;
           StreamAssembly_Preset := preset |} in
      rangePresets (index + 1) rest
        (outputList ++ [output])%list (streamAssemblyList ++ [streamAssembly])%list
  end.

Definition buildOutputsAndStreamAssemblies (presets : list string)
    : list Output * list StreamAssembly :=
  rangePresets 0 presets [] [].

Definition buildFullDestination (p : elementalConductorProvider) (source : string)
    : result string :=
  let sourceParts := strings.Split source "/" in
  let* sourceFilenamePart := sliceIndex sourceParts (Z.of_nat (List.length sourceParts) - 1) in
  let sourceFileName :=
    strings.TrimSuffix sourceFilenamePart (filepath.Ext sourceFilenamePart) in
  let destination := strings.TrimRight (Client_Destination (client p)) "/" in
  Ok (destination ++ "/" ++ sourceFileName).

(** The fields a client request leaves unset hold their zero values. *)
Definition newJob (p : elementalConductorProvider) (source : string)
    (presets : list string) : result Job :=
  let inputLocation :=
    {| Location_URI := source;
       Location_Username := Client_AccessKeyID (client p);
       Location_Password := Client_SecretAccessKey (client p) |} in
  let* fullDestination := buildFullDestination p source in
  let outputLocation :=
    {| Location_URI := fullDestination;
       Location_Username := Client_AccessKeyID (client p);
       Location_Password := Client_SecretAccessKey (client p) |} in
  let '(outputList, streamAssemblyList) := buildOutputsAndStreamAssemblies presets in
  Ok {| Job_Href := "";
        Job_Input := {| Input_FileInput := inputLocation |};
        Job_Priority := defaultJobPriority;
        Job_OutputGroup :=
          {| OutputGroup_Order := defaultOutputGroupOrder;
             OutputGroup_FileGroupSettings :=
               {| FileGroupSettings_Destination := outputLocation |};
             OutputGroup_Type := "file_group_settings";
             OutputGroup_Output := outputList |};
        Job_StreamAssembly := streamAssemblyList;
        Job_Status := "";
        Job_Submitted := zeroTime;
        Job_StartTime := zeroTime;
        Job_CompleteTime := zeroTime;
        Job_ErroredTime := zeroTime;
        Job_PercentComplete := 0;
        Job_ErrorMessages := [] |}.

(** The native names of the [switch], for stating what it accepts. *)
Definition started_names : list string :=
  ["preprocessing"; "running"; "postprocessing"].

Definition native_names : list string :=
  ["pending"; "preprocessing"; "running"; "postprocessing"; "complete";
   "cancelled"; "archived"].

Section Provider.

(** [strings.Map(unicode.ToLower, _)], see [strings.ToLower]. *)
Variable mapLower : string -> string.
Variable backend : Backend.

Definition statusMap (p : elementalConductorProvider)
    (elementalConductorStatus : string) : provider.Status :=
  let lowered := strings.ToLower mapLower elementalConductorStatus in
  if String.eqb lowered "pending" then provider.StatusQueued
  else if String.eqb lowered "preprocessing" then provider.StatusStarted
  else if String.eqb lowered "running" then provider.StatusStarted
  else if String.eqb lowered "postprocessing" then provider.StatusStarted
  else if String.eqb lowered "complete" then provider.StatusFinished
  else if String.eqb lowered "cancelled" then provider.StatusCanceled
  else if String.eqb lowered "archived" then provider.StatusArchived
  else provider.StatusFailed.

Definition TranscodeWithPresets (p : elementalConductorProvider)
    (source : string) (presets : list string)
    : result (option provider.JobStatus * option provider.error) :=
  let* newJob := newJob p source presets in
  match PostJob backend (client p) newJob with
  | (_, Some err) => Ok (None, Some err)
  | (None, None) => Panic "nil pointer dereference"
  | (Some resp, None) =>
      Ok (Some {| provider.JobStatus_ProviderName := Name;
                  provider.JobStatus_ProviderJobID := GetID backend resp;
                  provider.JobStatus_Status := provider.StatusQueued;
                  provider.JobStatus_ProviderStatus := None |},
          None)
  end.

(** The map literal and the four conditional assignments. *)
Definition providerStatusOf (resp : Job) : gmap string provider.Value :=
  let providerStatus : gmap string provider.Value :=
    <["status" := provider.VString (Job_Status resp)]>
    (<["pct_complete" := provider.VString (strconv.Itoa (Job_PercentComplete resp))]>
    (<["submitted" := provider.VDateTime (Job_Submitted resp)]> ∅)) in
  let providerStatus :=
    if negb (IsZero (Job_StartTime resp))
    then <["start_time" := provider.VDateTime (Job_StartTime resp)]> providerStatus
    else providerStatus in
  let providerStatus :=
    if negb (IsZero (Job_CompleteTime resp))
    then <["complete_time" := provider.VDateTime (Job_CompleteTime resp)]> providerStatus
    else providerStatus in
  let providerStatus :=
    if negb (IsZero (Job_ErroredTime resp))
    then <["errored_time" := provider.VDateTime (Job_ErroredTime resp)]> providerStatus
    else providerStatus in
  let providerStatus :=
    if (0 <? Z.of_nat (List.length (Job_ErrorMessages resp)))
    then <["error_messages" := provider.VJobErrors (Job_ErrorMessages resp)]> providerStatus
    else providerStatus in
  providerStatus.

(** The timestamps of a response, each with the key [JobStatus]
    stores it under. *)
Definition timestampFields : list (string * (Job -> DateTime)) :=
  [("submitted", Job_Submitted);
   ("start_time", Job_StartTime);
   ("complete_time", Job_CompleteTime);
   ("errored_time", Job_ErroredTime)].

Definition JobStatus (p : elementalConductorProvider) (id : string)
    : result (option provider.JobStatus * option provider.error) :=
  match GetJob backend (client p) id with
  | (_, Some err) => Ok (None, Some err)
  | (None, None) => Panic "nil pointer dereference"
  | (Some resp, None) =>
      Ok (Some {| provider.JobStatus_ProviderName := Name;
                  provider.JobStatus_ProviderJobID := GetID backend resp;
                  provider.JobStatus_Status := statusMap p (Job_Status resp);
                  provider.JobStatus_ProviderStatus := Some (providerStatusOf resp) |},
          None)
  end.

End Provider.

Definition elementalConductorFactory (cfg : config.Config)
    : traced (option elementalConductorProvider * option provider.error) :=
  let ec := config.Config_ElementalConductor cfg in
  if String.eqb (config.ElementalConductor_Host ec) ""
     || String.eqb (config.ElementalConductor_UserLogin ec) ""
     || String.eqb (config.ElementalConductor_APIKey ec) ""
     || (config.ElementalConductor_AuthExpires ec =? 0)
  then ret (None, Some errElementalConductorInvalidConfig)
  else
    let+ client :=
      call CallNewClient
        (NewClient
           (config.ElementalConductor_Host ec)
           (config.ElementalConductor_UserLogin ec)
           (config.ElementalConductor_APIKey ec)
           (config.ElementalConductor_AuthExpires ec)
           (config.ElementalConductor_AccessKeyID ec)
           (config.ElementalConductor_SecretAccessKey ec)
           (config.ElementalConductor_Destination ec)) in
    ret (Some {| client := client; config := cfg |}, None).

End elementalconductor.

(** ** The factory of the Media Convert provider *)

Module mediaconvert.

Definition Name : string := "mediaconvert".
Definition defaultAWSRegion : string := "us-east-1".

Definition errAWSInvalidConfig : provider.error :=
  provider.errors_New "invalid Media Convert config. Please define the configuration entries in the config file or environment variables".

Record Credentials : Type := {
  Credentials_id : string;
  Credentials_secret : string;
  Credentials_token : string }.

Definition NewStaticCredentials (id secret token : string) : Credentials :=
  {| Credentials_id := id; Credentials_secret := secret; Credentials_token := token |}.

(** [aws.Config], of which the factory sets the credentials and the
    region; both are pointers, nil in a new configuration. *)
Record awsConfig : Type := {
  awsConfig_Credentials : option Credentials;
  awsConfig_Region : option string }.

Definition NewConfig : awsConfig :=
  {| awsConfig_Credentials := None; awsConfig_Region := None |}.

Definition WithCredentials (c : awsConfig) (creds : Credentials) : awsConfig :=
  {| awsConfig_Credentials := Some creds; awsConfig_Region := awsConfig_Region c |}.

Definition WithRegion (c : awsConfig) (region : string) : awsConfig :=
  {| awsConfig_Credentials := awsConfig_Credentials c; awsConfig_Region := Some region |}.

(** A session, known by the configuration it was opened with. *)
Record Session : Type := { Session_Config : awsConfig }.

(** The handle [mediaconvert.New] wraps around a session pointer. *)
Record MediaConvertAPI : Type := { api_session : option Session }.

Definition New (s : option Session) : MediaConvertAPI := {| api_session := s |}.

Record awsProvider : Type := {
  c : MediaConvertAPI;
  config : option config.MediaConvert }.

Section Factory.

(** [session.NewSession] on the built configuration; whether it fails is
    decided by the SDK. *)
Variable NewSession : awsConfig -> option Session * option provider.error.

(** Reading a field of an absent section dereferences nil, before
    anything else is done; the calls are traced in the order Go evaluates
    them, the arguments of [NewSession] before [NewSession]. *)
Definition mediaConvertFactory (cfg : config.Config)
    : result (traced (option awsProvider * option provider.error)) :=
  match config.Config_MediaConvert cfg with
  | None => Panic "nil pointer dereference"
  | Some mc =>
      Ok (if String.eqb (config.MediaConvert_AccessKeyID mc) ""
             || String.eqb (config.MediaConvert_SecretAccessKey mc) ""
          then ret (None, Some errAWSInvalidConfig)
          else
            let+ creds :=
              call CallNewStaticCredentials
                (NewStaticCredentials (config.MediaConvert_AccessKeyID mc)
                   (config.MediaConvert_SecretAccessKey mc) "") in
            let region :=
              if String.eqb (config.MediaConvert_Region mc) "" then defaultAWSRegion
              else config.MediaConvert_Region mc in
            let+ awsCfg := call CallNewConfig NewConfig in
            let+ awsCfg := call CallWithCredentials (WithCredentials awsCfg creds) in
            let+ awsCfg := call CallWithRegion (WithRegion awsCfg region) in
            let+ answer := call CallNewSession (NewSession awsCfg) in
            match answer with
            | (_, Some err) => ret (None, Some err)
            | (awsSession, None) =>
                let+ api := call CallMediaConvertNew (New awsSession) in
                ret (Some {| c := api; config := config.Config_MediaConvert cfg |}, None)
            end)
  end.

End Factory.

End mediaconvert.

(** ** Sample configurations, providers and backends *)

Module samples.
Import wire.

Definition cfg : config.Config :=
  {| config.Config_ElementalConductor :=
       {| config.ElementalConductor_Host := "https://conductor.example.com";
          config.ElementalConductor_UserLogin := "login";
          config.ElementalConductor_APIKey := "api-key";
          config.ElementalConductor_AuthExpires := 30;
          config.ElementalConductor_AccessKeyID := "AKID";
          config.ElementalConductor_SecretAccessKey := "secret";
          config.ElementalConductor_Destination := "s3://bucket/out/" |};
     config.Config_MediaConvert :=
       Some {| config.MediaConvert_AccessKeyID := "";
               config.MediaConvert_SecretAccessKey := "secret";
               config.MediaConvert_Region := "" |} |}.


Definition p : elementalconductor.elementalConductorProvider :=
  {| elementalconductor.config := cfg;
     elementalconductor.client :=
       NewClient "https://conductor.example.com" "login" "api-key" 30
         "AKID" "secret" "s3://bucket/out/" |}.

(** Another host and login, the same storage keys and destination. *)
Definition p' : elementalconductor.elementalConductorProvider :=
  {| elementalconductor.config := cfg;
     elementalconductor.client :=
       NewClient "https://other.example.com" "someone" "other-key" 60
         "AKID" "secret" "s3://bucket/out/" |}.

(** A response whose fields all hold their zero values. *)
Definition zeroJob : Job :=
  {| Job_Href := "";
     Job_Input := {| Input_FileInput :=
                       {| Location_URI := ""; Location_Username := "";
                          Location_Password := "" |} |};
     Job_Priority := 0;
     Job_OutputGroup :=
       {| OutputGroup_Order := 0;
          OutputGroup_FileGroupSettings :=
            {| FileGroupSettings_Destination :=
                 {| Location_URI := ""; Location_Username := "";
                    Location_Password := "" |} |};
          OutputGroup_Type := "";
          OutputGroup_Output := [] |};
     Job_StreamAssembly := [];
     Job_Status := "";
     Job_Submitted := zeroTime;
     Job_StartTime := zeroTime;
     Job_CompleteTime := zeroTime;
     Job_ErroredTime := zeroTime;
     Job_PercentComplete := 0;
     Job_ErrorMessages := [] |}.

(** A job that finished: submitted, started and completed, no error. *)
Definition finishedJob : Job :=
  {| Job_Href := "/jobs/7";
     Job_Input := Job_Input zeroJob;
     Job_Priority := 50;
     Job_OutputGroup := Job_OutputGroup zeroJob;
     Job_StreamAssembly := [];
     Job_Status := "COMPLETE";
     Job_Submitted := {| sec := 63600000000; nsec := 0 |};
     Job_StartTime := {| sec := 63600000060; nsec := 0 |};
     Job_CompleteTime := {| sec := 63600000600; nsec := 500 |};
     Job_ErroredTime := zeroTime;
     Job_PercentComplete := 100;
     Job_ErrorMessages := [] |}.

Definition unreachable : provider.error :=
  provider.foreignError "dial tcp: connection refused".

(** A backend that fails every call. *)
Definition failing : elementalconductor.Backend :=
  {| elementalconductor.PostJob := fun _ _ => (None, Some unreachable);
     elementalconductor.GetJob := fun _ _ => (None, Some unreachable);
     elementalconductor.GetID := Job_Href |}.

(** A backend that accepts every job and reports it finished. *)
Definition accepting : elementalconductor.Backend :=
  {| elementalconductor.PostJob := fun _ _ => (Some finishedJob, None);
     elementalconductor.GetJob := fun _ _ => (Some finishedJob, None);
     elementalconductor.GetID := Job_Href |}.

(** A backend that answers neither a job nor an error. *)
Definition silent : elementalconductor.Backend :=
  {| elementalconductor.PostJob := fun _ _ => (None, None);
     elementalconductor.GetJob := fun _ _ => (None, None);
     elementalconductor.GetID := Job_Href |}.

(** The provider [p] with separators piled up at the end of its root. *)
Definition pSlashes : elementalconductor.elementalConductorProvider :=
  {| elementalconductor.config := cfg;
     elementalconductor.client :=
       NewClient "https://conductor.example.com" "login" "api-key" 30
         "AKID" "secret" "s3://bucket/out////" |}.

(** A provider without a destination root. *)
Definition pNoRoot : elementalconductor.elementalConductorProvider :=
  {| elementalconductor.config := cfg;
     elementalconductor.client :=
       NewClient "https://conductor.example.com" "login" "api-key" 30
         "AKID" "secret" "" |}.

(** A job that failed with two error messages. *)
Definition erroredJob : Job :=
  {| Job_Href := "/jobs/8";
     Job_Input := Job_Input zeroJob;
     Job_Priority := 50;
     Job_OutputGroup := Job_OutputGroup zeroJob;
     Job_StreamAssembly := [];
     Job_Status := "error";
     Job_Submitted := {| sec := 63600000000; nsec := 0 |};
     Job_StartTime := {| sec := 63600000060; nsec := 0 |};
     Job_CompleteTime := zeroTime;
     Job_ErroredTime := {| sec := 63600000090; nsec := 0 |};
     Job_PercentComplete := 12;
     Job_ErrorMessages :=
       [ {| JobError_Code := 1040; JobError_Message := "input not found" |};
         {| JobError_Code := 1999; JobError_Message := "job aborted" |} ] |}.

(** A Media Convert configuration with both keys and no region. *)
Definition cfgAWS : config.Config :=
  {| config.Config_ElementalConductor := config.Config_ElementalConductor cfg;
     config.Config_MediaConvert :=
       Some {| config.MediaConvert_AccessKeyID := "AKID";
               config.MediaConvert_SecretAccessKey := "secret";
               config.MediaConvert_Region := "" |} |}.


(** An SDK that opens every session it is asked for. *)
Definition sessionOpens (c : mediaconvert.awsConfig)
    : option mediaconvert.Session * option provider.error :=
  (Some {| mediaconvert.Session_Config := c |}, None).

(** An SDK that opens no session. *)
Definition sessionFails (c : mediaconvert.awsConfig)
    : option mediaconvert.Session * option provider.error :=
  (None, Some (provider.foreignError "session: could not load configuration")).

End samples.

(** ** Vocabulary for stating what the string functions compute *)

Module bytes.

Fixpoint contains (s : string) (c : ascii) : bool :=
  match s with
  | EmptyString => false
  | String a s' => Ascii.eqb a c || contains s' c
  end.

Fixpoint lastByte (s : string) : option ascii :=
  match s with
  | EmptyString => None
  | String a EmptyString => Some a
  | String _ s' => lastByte s'
  end.

Fixpoint repeatByte (c : ascii) (k : nat) : string :=
  match k with
  | O => EmptyString
  | S k' => String c (repeatByte c k')
  end.

(** [trimmed] is [root] without the separators at its end. *)
Definition isTrimmedRoot (root trimmed : string) : Prop :=
  (exists k : nat, root = trimmed ++ repeatByte "/" k)
  /\ lastByte trimmed <> Some "/"%char.

(** [seg] is what follows the last separator of [source], or all of
    [source] when it has none. *)
Definition isFinalSegment (source seg : string) : Prop :=
  contains seg "/" = false
  /\ (source = seg \/ exists q : string, source = q ++ "/" ++ seg).

(** [stem] is [seg] without its extension, the suffix that starts at the
    last dot of [seg]; a segment without a dot has no extension. *)
Definition isStem (seg stem : string) : Prop :=
  (contains seg "." = false /\ stem = seg)
  \/ (exists e : string, seg = stem ++ "." ++ e /\ contains e "." = false).

End bytes.

(** * Properties *)

#[local] Arguments String.append !s1 s2 : simpl nomatch.

(** ** Decimal printing *)

Lemma digit_value (d : Z) :
  0 <= d < 10 -> Z.of_nat (nat_of_ascii (strconv.digit d)) - 48 = d.
Proof.
  intros Hd. unfold strconv.digit.
  rewrite nat_ascii_embedding by lia. lia.
Qed.

Lemma formatBits_value (fuel : nat) :
  forall (u : Z) (acc : string),
    0 <= u < 2 ^ Z.of_nat fuel ->
    strconv.digitsValue (strconv.formatBits fuel u acc) 0 = strconv.digitsValue acc u.
Proof.
  induction fuel as [|fuel IH]; intros u acc Hu.
  - simpl in *. replace u with 0 by lia. reflexivity.
  - cbn [strconv.formatBits]. destruct (Z.ltb_spec u 10) as [Hlt|Hge].
    + cbn [strconv.digitsValue]. rewrite digit_value by lia. reflexivity.
    + rewrite IH.
      * cbn [strconv.digitsValue].
        rewrite digit_value by (apply Z.mod_pos_bound; lia).
        f_equal. pose proof (Z.div_mod u 10). lia.
      * rewrite Nat2Z.inj_succ, Z.pow_succ_r in Hu by lia.
        split; [apply Z.div_pos; lia|].
        apply Z.div_lt_upper_bound; lia.
Qed.

(** Reading the digits of [Itoa i] gives [i] back, so distinct indices
    print differently. *)
Lemma Itoa_digitsValue (i : Z) :
  0 <= i -> strconv.digitsValue (strconv.Itoa i) 0 = i.
Proof.
  intros Hi. unfold strconv.Itoa.
  destruct (Z.ltb_spec i 0) as [?|_]; [lia|].
  unfold strconv.formatUint. rewrite formatBits_value; [reflexivity|].
  split; [assumption|].
  destruct (Z.eq_dec i 0) as [->|Hne]; [reflexivity|].
  rewrite Nat2Z.inj_succ, Z2Nat.id by apply Z.log2_nonneg.
  apply Z.log2_spec. lia.
Qed.

Lemma Itoa_inj (i j : Z) :
  0 <= i -> 0 <= j -> strconv.Itoa i = strconv.Itoa j -> i = j.
Proof.
  intros Hi Hj Heq.
  rewrite <- (Itoa_digitsValue i Hi), <- (Itoa_digitsValue j Hj), Heq.
  reflexivity.
Qed.

(** ** The rendition loop *)

Section RangePresets.
Import wire elementalconductor.

Lemma rangePresets_length (presets : list string) :
  forall index outs sas,
    List.length (rangePresets index presets outs sas).1
      = (List.length outs + List.length presets)%nat
    /\ List.length (rangePresets index presets outs sas).2
      = (List.length sas + List.length presets)%nat.
Proof.
  induction presets as [|preset rest IH]; intros index outs sas; cbn [rangePresets].
  - simpl. lia.
  - destruct (IH (index + 1)
                (outs ++ [{| Output_StreamAssemblyName := "stream_" ++ strconv.Itoa index;
                             Output_Order := index;
                             Output_Extension := defaultExtension |}])%list
                (sas ++ [{| StreamAssembly_Name := "stream_" ++ strconv.Itoa index;
                            StreamAssembly_Preset := preset |}])%list) as [H1 H2].
    rewrite H1, H2, !length_app. simpl. lia.
Qed.

(** The loop only appends: what is already in the slices stays. *)
Lemma rangePresets_prefix (presets : list string) :
  forall index outs sas (j : nat),
    ((j < List.length outs)%nat ->
       (rangePresets index presets outs sas).1 !! j = outs !! j)
    /\ ((j < List.length sas)%nat ->
       (rangePresets index presets outs sas).2 !! j = sas !! j).
Proof.
  induction presets as [|preset rest IH]; intros index outs sas j; cbn [rangePresets].
  - split; reflexivity.
  - split; intros Hj.
    + rewrite (proj1 (IH _ _ _ j)) by (rewrite length_app; simpl; lia).
      apply lookup_app_l. assumption.
    + rewrite (proj2 (IH _ _ _ j)) by (rewrite length_app; simpl; lia).
      apply lookup_app_l. assumption.
Qed.

Lemma rangePresets_lookup (presets : list string) :
  forall index outs sas (i : nat) (preset : string),
    presets !! i = Some preset ->
    (rangePresets index presets outs sas).1 !! (List.length outs + i)%nat
      = Some {| Output_StreamAssemblyName := "stream_" ++ strconv.Itoa (index + Z.of_nat i);
                Output_Order := index + Z.of_nat i;
                Output_Extension := ".mp4" |}
    /\ (rangePresets index presets outs sas).2 !! (List.length sas + i)%nat
      = Some {| StreamAssembly_Name := "stream_" ++ strconv.Itoa (index + Z.of_nat i);
                StreamAssembly_Preset := preset |}.
Proof.
  induction presets as [|p rest IH]; intros index outs sas i preset Hi.
  - destruct i; discriminate.
  - cbn [rangePresets]. destruct i as [|i].
    + injection Hi as ->. rewrite !Nat.add_0_r, Z.add_0_r.
      rewrite (proj1 (rangePresets_prefix rest _ _ _ (List.length outs)))
        by (rewrite length_app; simpl; lia).
      rewrite (proj2 (rangePresets_prefix rest _ _ _ (List.length sas)))
        by (rewrite length_app; simpl; lia).
      rewrite !lookup_app_r, !Nat.sub_diag by lia. split; reflexivity.
    + simpl in Hi.
      destruct (IH (index + 1)
                  (outs ++ [{| Output_StreamAssemblyName := "stream_" ++ strconv.Itoa index;
                               Output_Order := index;
                               Output_Extension := defaultExtension |}])%list
                  (sas ++ [{| StreamAssembly_Name := "stream_" ++ strconv.Itoa index;
                              StreamAssembly_Preset := p |}])%list
                  i preset Hi) as [H1 H2].
      rewrite !length_app in H1, H2. simpl in H1, H2.
      replace (index + 1 + Z.of_nat i) with (index + Z.of_nat (S i)) in H1, H2 by lia.
      replace (List.length outs + 1 + i)%nat with (List.length outs + S i)%nat in H1 by lia.
      replace (List.length sas + 1 + i)%nat with (List.length sas + S i)%nat in H2 by lia.
      split; assumption.
Qed.

End RangePresets.

Lemma buildOutputsAndStreamAssemblies_lengths (presets : list string) :
  List.length (elementalconductor.buildOutputsAndStreamAssemblies presets).1
    = List.length presets
  /\ List.length (elementalconductor.buildOutputsAndStreamAssemblies presets).2
    = List.length presets.
Proof. apply (rangePresets_length presets 0 [] []). Qed.

(** C1. For a list of [n] presets, [buildOutputsAndStreamAssemblies] returns
    exactly [n] outputs and exactly [n] stream assemblies; at every index
    [i < n] the output is named [stream_<i>] (the decimal of [i]), has
    order [i] and extension [.mp4], and the stream assembly has the same
    name and the [i]-th preset. *)
Theorem buildOutputsAndStreamAssemblies_spec (presets : list string) :
  let outputs := (elementalconductor.buildOutputsAndStreamAssemblies presets).1 in
  let assemblies := (elementalconductor.buildOutputsAndStreamAssemblies presets).2 in
  List.length outputs = List.length presets
  /\ List.length assemblies = List.length presets
  /\ forall i : nat, (i < List.length presets)%nat ->
       exists preset : string,
         presets !! i = Some preset
         /\ outputs !! i
            = Some {| wire.Output_StreamAssemblyName := "stream_" ++ strconv.Itoa (Z.of_nat i);
                      wire.Output_Order := Z.of_nat i;
                      wire.Output_Extension := ".mp4" |}
         /\ assemblies !! i
            = Some {| wire.StreamAssembly_Name := "stream_" ++ strconv.Itoa (Z.of_nat i);
                      wire.StreamAssembly_Preset := preset |}
         /\ strconv.digitsValue (strconv.Itoa (Z.of_nat i)) 0 = Z.of_nat i.
Proof.
  cbv zeta. unfold elementalconductor.buildOutputsAndStreamAssemblies.
  destruct (rangePresets_length presets 0 [] []) as [Hlo Hla].
  repeat split; [exact Hlo | exact Hla |].
  intros i Hi.
  destruct (lookup_lt_is_Some_2 presets i Hi) as [preset Hp].
  exists preset.
  destruct (rangePresets_lookup presets 0 [] [] i preset Hp) as [Ho Ha].
  simpl in Ho, Ha.
  repeat split; [exact Hp | exact Ho | exact Ha |].
  apply Itoa_digitsValue. lia.
Qed.

Lemma buildOutputsAndStreamAssemblies_spec_witness :
  (1 < List.length ["preset-a"; "preset-b"])%nat
  /\ (elementalconductor.buildOutputsAndStreamAssemblies ["preset-a"; "preset-b"]).1 !! 1%nat
     = Some {| wire.Output_StreamAssemblyName := "stream_1";
               wire.Output_Order := 1;
               wire.Output_Extension := ".mp4" |}.
Proof.
  split; [simpl; lia|].
  destruct (buildOutputsAndStreamAssemblies_spec ["preset-a"; "preset-b"]) as (_ & _ & H).
  destruct (H 1%nat ltac:(simpl; lia)) as (preset & _ & Ho & _).
  exact Ho.
Defined.

(** ** Status normalisation *)

Section StatusMap.
Import provider elementalconductor.
Variable mapLower : string -> string.
Variable p : elementalConductorProvider.

Lemma statusMap_table (s : string) :
  let lowered := strings.ToLower mapLower s in
  (lowered = "pending" -> statusMap mapLower p s = StatusQueued)
  /\ (In lowered started_names -> statusMap mapLower p s = StatusStarted)
  /\ (lowered = "complete" -> statusMap mapLower p s = StatusFinished)
  /\ (lowered = "cancelled" -> statusMap mapLower p s = StatusCanceled)
  /\ (lowered = "archived" -> statusMap mapLower p s = StatusArchived)
  /\ (~ In lowered native_names -> statusMap mapLower p s = StatusFailed)
  /\ (statusMap mapLower p s <> StatusFailed -> In lowered native_names).
Proof.
  cbv zeta. unfold statusMap, started_names, native_names.
  generalize (strings.ToLower mapLower s). intros l.
  repeat (match goal with
          | |- context [String.eqb l ?w] => destruct (String.eqb_spec l w) as [->|?]
          end; [simpl; intuition (discriminate || congruence)|]).
  simpl; intuition (discriminate || congruence).
Qed.

End StatusMap.

(** C2. [statusMap] is total and does not look at case: a string whose
    lowercasing is [pending] maps to queued; [preprocessing], [running] or
    [postprocessing] to started; [complete] to finished; [cancelled] to
    canceled; [archived] to archived; every other string, the empty one
    included, to failed. The result is one of the six canonical statuses,
    a result other than failed is given to the seven native names only,
    and two ASCII strings that differ in the case of their letters get the
    same status. *)
Theorem statusMap_total_case_insensitive
    (mapLower : string -> string)
    (p : elementalconductor.elementalConductorProvider) (s : string) :
  let lowered := strings.ToLower mapLower s in
  let status := elementalconductor.statusMap mapLower p s in
  (lowered = "pending" -> status = provider.StatusQueued)
  /\ (In lowered ["preprocessing"; "running"; "postprocessing"] ->
      status = provider.StatusStarted)
  /\ (lowered = "complete" -> status = provider.StatusFinished)
  /\ (lowered = "cancelled" -> status = provider.StatusCanceled)
  /\ (lowered = "archived" -> status = provider.StatusArchived)
  /\ (~ In lowered ["pending"; "preprocessing"; "running"; "postprocessing";
                    "complete"; "cancelled"; "archived"] ->
      status = provider.StatusFailed)
  /\ (status <> provider.StatusFailed ->
      In lowered ["pending"; "preprocessing"; "running"; "postprocessing";
                  "complete"; "cancelled"; "archived"])
  /\ In status [provider.StatusQueued; provider.StatusStarted; provider.StatusFinished;
                provider.StatusCanceled; provider.StatusFailed; provider.StatusArchived]
  /\ (forall t : string,
        strings.isASCII s = true -> strings.isASCII t = true ->
        strings.lowerASCII s = strings.lowerASCII t ->
        elementalconductor.statusMap mapLower p t = status)
  /\ elementalconductor.statusMap mapLower p "COMPLETE" = provider.StatusFinished
  /\ elementalconductor.statusMap mapLower p "complete" = provider.StatusFinished
  /\ elementalconductor.statusMap mapLower p "Complete" = provider.StatusFinished
  /\ elementalconductor.statusMap mapLower p "unknown_state" = provider.StatusFailed
  /\ elementalconductor.statusMap mapLower p "" = provider.StatusFailed.
Proof.
  cbv zeta.
  destruct (statusMap_table mapLower p s) as (H1 & H2 & H3 & H4 & H5 & H6 & H7).
  repeat (split; [assumption|]).
  split.
  { destruct (elementalconductor.statusMap mapLower p s); simpl; tauto. }
  split.
  { intros t Hs Ht Heq. unfold elementalconductor.statusMap, strings.ToLower.
    rewrite Hs, Ht, Heq. reflexivity. }
  repeat split; reflexivity.
Qed.

Lemma statusMap_total_case_insensitive_witness :
  strings.ToLower (fun s => s) "PreProcessing" = "preprocessing"
  /\ elementalconductor.statusMap (fun s => s) samples.p "PreProcessing"
     = provider.StatusStarted
  /\ elementalconductor.statusMap (fun s => s) samples.p "preprocessing"
     = elementalconductor.statusMap (fun s => s) samples.p "PreProcessing".
Proof.
  destruct (statusMap_total_case_insensitive (fun s => s) samples.p "PreProcessing")
    as (_ & Hstarted & _ & _ & _ & _ & _ & _ & Hcase & _).
  split; [reflexivity|]. split.
  - apply Hstarted. simpl. tauto.
  - apply (Hcase "preprocessing"); reflexivity.
Defined.

(** ** Strings as byte sequences *)

Section StringFacts.
Import bytes.

Lemma length_append (a b : string) :
  String.length (a ++ b) = (String.length a + String.length b)%nat.
Proof. induction a as [|c a IH]; simpl; [reflexivity | now rewrite IH]. Qed.

Lemma append_assoc (a b c : string) : (a ++ b) ++ c = a ++ (b ++ c).
Proof. induction a as [|x a IH]; simpl; [reflexivity | now rewrite IH]. Qed.

Lemma append_empty_r (a : string) : a ++ "" = a.
Proof. induction a as [|x a IH]; simpl; [reflexivity | now rewrite IH]. Qed.

Lemma get_append_length (a b : string) (c : ascii) :
  String.get (String.length a) (a ++ String c b) = Some c.
Proof. induction a as [|x a IH]; simpl; [reflexivity | exact IH]. Qed.

Lemma substring_all (b : string) : substring 0 (String.length b) b = b.
Proof. induction b as [|x b IH]; simpl; [reflexivity | now rewrite IH]. Qed.

Lemma substring_append_skip (a b : string) (m : nat) :
  substring (String.length a) m (a ++ b) = substring 0 m b.
Proof. induction a as [|x a IH]; simpl; [reflexivity | exact IH]. Qed.

Lemma substring_append_prefix (a b : string) :
  substring 0 (String.length a) (a ++ b) = a.
Proof.
  induction a as [|x a IH]; simpl.
  - destruct b; reflexivity.
  - now rewrite IH.
Qed.

Lemma contains_append (a b : string) (c : ascii) :
  contains (a ++ b) c = contains a c || contains b c.
Proof.
  induction a as [|x a IH]; simpl; [reflexivity|].
  rewrite IH. now rewrite orb_assoc.
Qed.

(** Every string either lacks [c] or splits at its last [c]. *)
Lemma split_at_last (c : ascii) (s : string) :
  contains s c = false
  \/ exists q e : string, s = q ++ String c e /\ contains e c = false.
Proof.
  induction s as [|x s IH]; [left; reflexivity|].
  destruct IH as [Hno | (q & e & -> & He)].
  - simpl. destruct (Ascii.eqb_spec x c) as [->|Hne].
    + right. exists "", s. split; [reflexivity | assumption].
    + left. simpl. assumption.
  - right. exists (String x q), e. split; [reflexivity | assumption].
Qed.

End StringFacts.

(** ** The string functions of the destination derivation *)

Section DestinationFacts.
Import bytes.

Lemma TrimRight_repeatByte (c : ascii) (k : nat) :
  strings.TrimRight (repeatByte c k) c = "".
Proof.
  induction k as [|k IH]; simpl; [reflexivity|].
  rewrite IH, Ascii.eqb_refl. reflexivity.
Qed.

Lemma TrimRight_trimmed (c : ascii) (k : nat) (trimmed : string) :
  lastByte trimmed <> Some c ->
  strings.TrimRight (trimmed ++ repeatByte c k) c = trimmed.
Proof.
  induction trimmed as [|a t IH]; intros Hlast.
  - apply TrimRight_repeatByte.
  - simpl. destruct t as [|b t'].
    + simpl in *. rewrite TrimRight_repeatByte.
      destruct (Ascii.eqb_spec a c) as [->|_]; [congruence | reflexivity].
    + rewrite IH by exact Hlast. reflexivity.
Qed.

Lemma TrimRight_isTrimmedRoot (root : string) :
  isTrimmedRoot root (strings.TrimRight root "/").
Proof.
  unfold isTrimmedRoot. generalize "/"%char. intros c.
  induction root as [|a s IH]; simpl.
  - split; [exists 0%nat; reflexivity | discriminate].
  - destruct IH as [[k Hk] Hlast].
    destruct (strings.TrimRight s c) as [|b r] eqn:Ht.
    + destruct (Ascii.eqb_spec a c) as [->|Hne].
      * split; [exists (S k); simpl in *; now rewrite <- Hk | discriminate].
      * split; [exists k; simpl in *; now rewrite <- Hk | simpl; congruence].
    + split; [exists k; simpl in *; now rewrite <- Hk | exact Hlast].
Qed.

Lemma Split_nonempty (s : string) (sep : ascii) : strings.Split s sep <> [].
Proof.
  destruct s as [|c s]; simpl; [discriminate|].
  destruct (Ascii.eqb c sep); [discriminate|].
  destruct (strings.Split s sep); discriminate.
Qed.

Lemma Split_no_separator (s : string) (sep : ascii) :
  contains s sep = false -> strings.Split s sep = [s].
Proof.
  induction s as [|c s IH]; simpl; [reflexivity|].
  intros [Hc Hs]%orb_false_elim. rewrite Hc, IH by assumption. reflexivity.
Qed.

Lemma Split_separator_length (q e : string) (sep : ascii) :
  (2 <= List.length (strings.Split (q ++ String sep e) sep))%nat.
Proof.
  induction q as [|c q IH]; simpl.
  - rewrite Ascii.eqb_refl. simpl.
    pose proof (Split_nonempty e sep).
    destruct (strings.Split e sep); [congruence | simpl; lia].
  - destruct (Ascii.eqb c sep); [simpl; lia|].
    destruct (strings.Split (q ++ String sep e) sep); simpl in *; lia.
Qed.

Lemma Split_last (q seg : string) (sep : ascii) :
  contains seg sep = false ->
  last (strings.Split (q ++ String sep seg) sep) = Some seg.
Proof.
  intros Hseg. induction q as [|c q IH]; simpl.
  - rewrite Ascii.eqb_refl, Split_no_separator by assumption. reflexivity.
  - pose proof (Split_separator_length q seg sep) as Hlen.
    destruct (Ascii.eqb c sep).
    + rewrite last_cons, IH. reflexivity.
    + destruct (strings.Split (q ++ String sep seg) sep) as [|piece [|piece' pieces]];
        simpl in Hlen; try lia.
      exact IH.
Qed.

Lemma sliceIndex_last {A : Type} (l : list A) (x : A) :
  last l = Some x -> sliceIndex l (Z.of_nat (List.length l) - 1) = Ok x.
Proof.
  intros Hl. unfold sliceIndex.
  assert (List.length l <> 0%nat) as Hne by (destruct l; [discriminate | simpl; lia]).
  destruct (Z.ltb_spec (Z.of_nat (List.length l) - 1) 0); [lia|].
  destruct (Z.leb_spec (Z.of_nat (List.length l)) (Z.of_nat (List.length l) - 1)); [lia|].
  simpl. rewrite last_lookup in Hl.
  replace (Z.to_nat (Z.of_nat (List.length l) - 1)) with (Nat.pred (List.length l)) by lia.
  rewrite Hl. reflexivity.
Qed.

Lemma Split_final_segment (source seg : string) :
  isFinalSegment source seg ->
  sliceIndex (strings.Split source "/")
    (Z.of_nat (List.length (strings.Split source "/")) - 1) = Ok seg.
Proof.
  intros [Hno [-> | [q ->]]]; apply sliceIndex_last.
  - rewrite Split_no_separator by assumption. reflexivity.
  - apply Split_last. assumption.
Qed.

Lemma final_segment_exists (source : string) :
  exists seg : string, isFinalSegment source seg.
Proof.
  destruct (split_at_last "/" source) as [Hno | (q & e & -> & He)].
  - exists source. split; [assumption | left; reflexivity].
  - exists e. split; [assumption | right; exists q; reflexivity].
Qed.

(** The loop of [Ext] walks over a tail free of dots and separators. *)
Lemma Ext_loop_skip (tail : string) :
  forall front : string,
    contains tail "." = false ->
    contains tail "/" = false ->
    filepath.Ext_loop (front ++ tail) (String.length front + String.length tail)
    = filepath.Ext_loop (front ++ tail) (String.length front).
Proof.
  induction tail as [|c tail IH]; intros front Hdot Hsep.
  - simpl. now rewrite Nat.add_0_r.
  - simpl in Hdot, Hsep.
    apply orb_false_elim in Hdot as [Hc1 Hdot].
    apply orb_false_elim in Hsep as [Hc2 Hsep].
    specialize (IH (front ++ String c "") Hdot Hsep).
    rewrite append_assoc, length_append in IH. simpl in IH.
    cbn [String.length].
    replace (String.length front + S (String.length tail))%nat
      with (String.length front + 1 + String.length tail)%nat by lia.
    rewrite IH. rewrite Nat.add_1_r. cbn [filepath.Ext_loop].
    rewrite get_append_length. unfold filepath.IsPathSeparator.
    rewrite Hc2, Hc1. reflexivity.
Qed.

Lemma Ext_no_dot (seg : string) :
  contains seg "." = false -> contains seg "/" = false -> filepath.Ext seg = "".
Proof.
  intros Hdot Hsep. unfold filepath.Ext.
  apply (Ext_loop_skip seg "" Hdot Hsep).
Qed.

Lemma Ext_last_dot (stem e : string) :
  contains e "." = false -> contains e "/" = false ->
  filepath.Ext (stem ++ "." ++ e) = "." ++ e.
Proof.
  intros Hdot Hsep. unfold filepath.Ext.
  pose proof (Ext_loop_skip e (stem ++ ".") Hdot Hsep) as Hskip.
  rewrite append_assoc, !length_append in Hskip. simpl in Hskip.
  rewrite length_append. simpl.
  replace (String.length stem + S (String.length e))%nat
    with (String.length stem + 1 + String.length e)%nat by lia.
  rewrite Hskip, Nat.add_1_r. cbn [filepath.Ext_loop].
  rewrite get_append_length. simpl.
  rewrite length_append. simpl.
  replace (String.length stem + S (String.length e) - String.length stem)%nat
    with (S (String.length e)) by lia.
  rewrite substring_append_skip. simpl. now rewrite substring_all.
Qed.

Lemma TrimSuffix_append (stem ext : string) :
  strings.TrimSuffix (stem ++ ext) ext = stem.
Proof.
  unfold strings.TrimSuffix, strings.HasSuffix.
  rewrite length_append.
  replace (String.length stem + String.length ext - String.length ext)%nat
    with (String.length stem) by lia.
  rewrite substring_append_skip, substring_all, String.eqb_refl.
  replace (String.length ext <=? String.length stem + String.length ext)%nat
    with true by (symmetry; apply Nat.leb_le; lia).
  simpl. apply substring_append_prefix.
Qed.

Lemma TrimSuffix_Ext_stem (seg stem : string) :
  contains seg "/" = false -> isStem seg stem ->
  strings.TrimSuffix seg (filepath.Ext seg) = stem.
Proof.
  intros Hsep [[Hdot ->] | (e & -> & Hdot)].
  - rewrite Ext_no_dot by assumption.
    rewrite <- (append_empty_r seg) at 1. apply TrimSuffix_append.
  - rewrite contains_append in Hsep. apply orb_false_elim in Hsep as [_ Hsep].
    simpl in Hsep.
    rewrite Ext_last_dot by assumption. apply TrimSuffix_append.
Qed.

Lemma stem_exists (seg : string) : exists stem : string, isStem seg stem.
Proof.
  destruct (split_at_last "." seg) as [Hno | (q & e & -> & He)].
  - exists seg. left. split; [assumption | reflexivity].
  - exists q. right. exists e. split; [reflexivity | assumption].
Qed.

End DestinationFacts.

(** ** Destination derivation *)

Section Destination.
Import bytes wire elementalconductor.

(** Any way of cutting the root and the source as the derivation
    describes yields the same path. *)
Lemma buildFullDestination_decomposed (p : elementalConductorProvider)
    (source trimmed seg stem : string) :
  isTrimmedRoot (Client_Destination (client p)) trimmed ->
  isFinalSegment source seg ->
  isStem seg stem ->
  buildFullDestination p source = Ok (trimmed ++ "/" ++ stem).
Proof.
  intros [[k Hroot] Hlast] Hseg Hstem. unfold buildFullDestination.
  rewrite (Split_final_segment source seg Hseg). cbn [bind].
  rewrite (TrimSuffix_Ext_stem seg stem (proj1 Hseg) Hstem).
  rewrite Hroot, TrimRight_trimmed by assumption. reflexivity.
Qed.

Lemma buildFullDestination_Ok (p : elementalConductorProvider) (source : string) :
  exists trimmed seg stem : string,
    isTrimmedRoot (Client_Destination (client p)) trimmed
    /\ isFinalSegment source seg
    /\ isStem seg stem
    /\ buildFullDestination p source = Ok (trimmed ++ "/" ++ stem).
Proof.
  destruct (final_segment_exists source) as [seg Hseg].
  destruct (stem_exists seg) as [stem Hstem].
  pose proof (TrimRight_isTrimmedRoot (Client_Destination (client p))) as Hroot.
  exists (strings.TrimRight (Client_Destination (client p)) "/"), seg, stem.
  split; [exact Hroot|]. split; [exact Hseg|]. split; [exact Hstem|].
  apply (buildFullDestination_decomposed p source _ seg stem Hroot Hseg Hstem).
Qed.

End Destination.

(** C3. [buildFullDestination] returns the destination root without the
    ['/'] separators at its end, then ['/'], then the final
    ['/']-separated segment of the source without its filename extension;
    for source ["/a/b/clip.mov"] under root ["s3://bucket/out/"] this is
    ["s3://bucket/out/clip"]. *)
Theorem buildFullDestination_spec
    (p : elementalconductor.elementalConductorProvider) (source : string) :
  (exists trimmed seg stem : string,
     bytes.isTrimmedRoot (wire.Client_Destination (elementalconductor.client p)) trimmed
     /\ bytes.isFinalSegment source seg
     /\ bytes.isStem seg stem
     /\ elementalconductor.buildFullDestination p source = Ok (trimmed ++ "/" ++ stem))
  /\ (forall (cfg : config.Config) (host userLogin apiKey : string) (authExpires : Z)
        (accessKeyID secretAccessKey : string),
        elementalconductor.buildFullDestination
          {| elementalconductor.config := cfg;
             elementalconductor.client :=
               wire.NewClient host userLogin apiKey authExpires
                 accessKeyID secretAccessKey "s3://bucket/out/" |}
          "/a/b/clip.mov"
        = Ok "s3://bucket/out/clip").
Proof.
  split; [apply buildFullDestination_Ok | intros; reflexivity].
Qed.

(** C10. The derived path depends on the source only through its final
    segment with the extension removed: two sources whose final segments
    have the same stem are sent, under the same destination root, to the
    same path. *)
Theorem buildFullDestination_same_stem
    (p1 p2 : elementalconductor.elementalConductorProvider)
    (source1 source2 seg1 seg2 stem : string)
    (Hroot : wire.Client_Destination (elementalconductor.client p1)
             = wire.Client_Destination (elementalconductor.client p2))
    (Hseg1 : bytes.isFinalSegment source1 seg1)
    (Hseg2 : bytes.isFinalSegment source2 seg2)
    (Hstem1 : bytes.isStem seg1 stem)
    (Hstem2 : bytes.isStem seg2 stem) :
  elementalconductor.buildFullDestination p1 source1
  = elementalconductor.buildFullDestination p2 source2
  /\ exists path : string, elementalconductor.buildFullDestination p1 source1 = Ok path.
Proof.
  pose proof (TrimRight_isTrimmedRoot
                (wire.Client_Destination (elementalconductor.client p1))) as Ht1.
  pose proof Ht1 as Ht2. rewrite Hroot in Ht2 at 1.
  rewrite (buildFullDestination_decomposed p1 source1 _ seg1 stem Ht1 Hseg1 Hstem1).
  rewrite (buildFullDestination_decomposed p2 source2 _ seg2 stem Ht2 Hseg2 Hstem2).
  split; [reflexivity | eexists; reflexivity].
Qed.

Lemma buildFullDestination_same_stem_witness :
  "/a/clip.mov" <> "/b/clip.mov"
  /\ elementalconductor.buildFullDestination samples.p "/a/clip.mov"
     = elementalconductor.buildFullDestination samples.p' "/b/clip.mov".
Proof.
  split; [discriminate|].
  refine (proj1 (buildFullDestination_same_stem samples.p samples.p'
                   "/a/clip.mov" "/b/clip.mov" "clip.mov" "clip.mov" "clip"
                   _ _ _ _ _)).
  - reflexivity.
  - split; [reflexivity | right; exists "/a"; reflexivity].
  - split; [reflexivity | right; exists "/b"; reflexivity].
  - right. exists "mov". split; reflexivity.
  - right. exists "mov". split; reflexivity.
Defined.

(** ** The request builder *)

Section NewJob.
Import wire elementalconductor.

Lemma rangePresets_names (presets : list string) :
  forall index outs sas,
    map Output_StreamAssemblyName outs = map StreamAssembly_Name sas ->
    map Output_StreamAssemblyName (rangePresets index presets outs sas).1
    = map StreamAssembly_Name (rangePresets index presets outs sas).2.
Proof.
  induction presets as [|preset rest IH]; intros index outs sas Hnames;
    cbn [rangePresets]; [exact Hnames|].
  apply IH. rewrite !map_app, Hnames. reflexivity.
Qed.

Lemma newJob_Ok (p : elementalConductorProvider) (source : string)
    (presets : list string) :
  exists fullDestination : string,
    buildFullDestination p source = Ok fullDestination
    /\ newJob p source presets
       = Ok {| Job_Href := "";
               Job_Input :=
                 {| Input_FileInput :=
                      {| Location_URI := source;
                         Location_Username := Client_AccessKeyID (client p);
                         Location_Password := Client_SecretAccessKey (client p) |} |};
               Job_Priority := 50;
               Job_OutputGroup :=
                 {| OutputGroup_Order := 1;
                    OutputGroup_FileGroupSettings :=
                      {| FileGroupSettings_Destination :=
                           {| Location_URI := fullDestination;
                              Location_Username := Client_AccessKeyID (client p);
                              Location_Password := Client_SecretAccessKey (client p) |} |};
                    OutputGroup_Type := "file_group_settings";
                    OutputGroup_Output := (buildOutputsAndStreamAssemblies presets).1 |};
               Job_StreamAssembly := (buildOutputsAndStreamAssemblies presets).2;
               Job_Status := "";
               Job_Submitted := zeroTime;
               Job_StartTime := zeroTime;
               Job_CompleteTime := zeroTime;
               Job_ErroredTime := zeroTime;
               Job_PercentComplete := 0;
               Job_ErrorMessages := [] |}.
Proof.
  destruct (buildFullDestination_Ok p source) as (trimmed & seg & stem & _ & _ & _ & Hd).
  exists (trimmed ++ "/" ++ stem). split; [exact Hd|].
  unfold newJob. rewrite Hd. cbn [bind].
  destruct (buildOutputsAndStreamAssemblies presets) as [outs sas]. reflexivity.
Qed.

End NewJob.

(** C9. [newJob] never panics: for every source string and every preset
    list it returns a request, whose input is the source, whose outputs and
    stream assemblies are as many as the presets and carry the same names
    in the same order; without presets both lists are empty. *)
Theorem newJob_total (p : elementalconductor.elementalConductorProvider)
    (source : string) (presets : list string) :
  (exists job : wire.Job,
     elementalconductor.newJob p source presets = Ok job
     /\ wire.Location_URI (wire.Input_FileInput (wire.Job_Input job)) = source
     /\ List.length (wire.OutputGroup_Output (wire.Job_OutputGroup job))
        = List.length presets
     /\ List.length (wire.Job_StreamAssembly job) = List.length presets
     /\ map wire.Output_StreamAssemblyName (wire.OutputGroup_Output (wire.Job_OutputGroup job))
        = map wire.StreamAssembly_Name (wire.Job_StreamAssembly job))
  /\ (exists job : wire.Job,
        elementalconductor.newJob p source [] = Ok job
        /\ wire.OutputGroup_Output (wire.Job_OutputGroup job) = []
        /\ wire.Job_StreamAssembly job = [])
  /\ (exists job : wire.Job, elementalconductor.newJob p "" [] = Ok job)
  /\ (exists path : string, elementalconductor.buildFullDestination p source = Ok path).
Proof.
  destruct (newJob_Ok p source presets) as (d & Hd & Hjob).
  destruct (newJob_Ok p source []) as (d0 & _ & Hjob0).
  destruct (newJob_Ok p "" []) as (d1 & _ & Hjob1).
  destruct (buildOutputsAndStreamAssemblies_lengths presets) as [Hlo Hla].
  repeat split.
  - eexists. split; [exact Hjob|]. cbn.
    repeat split; [exact Hlo | exact Hla |].
    apply rangePresets_names. reflexivity.
  - eexists. split; [exact Hjob0|]. split; reflexivity.
  - eexists. exact Hjob1.
  - exists d. exact Hd.
Qed.

(** C8. The built request is a function of the source, the presets, and the
    storage keys and destination root of the client, and of nothing else:
    providers that agree on these three build equal requests from the
    same source and presets. *)
Theorem newJob_deterministic
    (p1 p2 : elementalconductor.elementalConductorProvider)
    (source : string) (presets : list string)
    (Hkey : wire.Client_AccessKeyID (elementalconductor.client p1)
            = wire.Client_AccessKeyID (elementalconductor.client p2))
    (Hsecret : wire.Client_SecretAccessKey (elementalconductor.client p1)
               = wire.Client_SecretAccessKey (elementalconductor.client p2))
    (Hroot : wire.Client_Destination (elementalconductor.client p1)
             = wire.Client_Destination (elementalconductor.client p2)) :
  elementalconductor.newJob p1 source presets
  = elementalconductor.newJob p2 source presets.
Proof.
  unfold elementalconductor.newJob, elementalconductor.buildFullDestination.
  rewrite Hkey, Hsecret, Hroot. reflexivity.
Qed.

Lemma newJob_deterministic_witness :
  samples.p <> samples.p'
  /\ elementalconductor.newJob samples.p "s3://in/video.mp4" ["preset-a"; "preset-b"]
     = elementalconductor.newJob samples.p' "s3://in/video.mp4" ["preset-a"; "preset-b"].
Proof.
  split; [discriminate|].
  apply (newJob_deterministic samples.p samples.p'); reflexivity.
Defined.

(** ** Submitting and polling *)

(** C6. When the backend call of a submission or of a poll returns an
    error, the operation returns that very error and a nil job status,
    whatever pointer came with the error. *)
Theorem backend_error_returned
    (mapLower : string -> string) (backend : elementalconductor.Backend)
    (p : elementalconductor.elementalConductorProvider) :
  (forall (source : string) (presets : list string),
     exists job : wire.Job,
       elementalconductor.newJob p source presets = Ok job
       /\ forall (resp : option wire.Job) (err : provider.error),
            elementalconductor.PostJob backend (elementalconductor.client p) job
            = (resp, Some err) ->
            elementalconductor.TranscodeWithPresets backend p source presets
            = Ok (None, Some err))
  /\ (forall (id : string) (resp : option wire.Job) (err : provider.error),
        elementalconductor.GetJob backend (elementalconductor.client p) id
        = (resp, Some err) ->
        elementalconductor.JobStatus mapLower backend p id = Ok (None, Some err)).
Proof.
  split.
  - intros source presets.
    destruct (newJob_Ok p source presets) as (d & _ & Hjob).
    eexists. split; [exact Hjob|].
    intros resp err Hpost. unfold elementalconductor.TranscodeWithPresets.
    rewrite Hjob. cbn [bind]. rewrite Hpost. destruct resp; reflexivity.
  - intros id resp err Hget. unfold elementalconductor.JobStatus.
    rewrite Hget. destruct resp; reflexivity.
Qed.

Lemma backend_error_returned_witness :
  elementalconductor.GetJob samples.failing (elementalconductor.client samples.p) "7"
  = (None, Some samples.unreachable)
  /\ elementalconductor.JobStatus (fun s => s) samples.failing samples.p "7"
     = Ok (None, Some samples.unreachable)
  /\ elementalconductor.TranscodeWithPresets samples.failing samples.p
       "s3://in/video.mp4" ["preset-a"; "preset-b"]
     = Ok (None, Some samples.unreachable).
Proof.
  destruct (backend_error_returned (fun s => s) samples.failing samples.p) as [Hpost Hget].
  split; [reflexivity|]. split.
  - apply (Hget "7" None samples.unreachable). reflexivity.
  - destruct (Hpost "s3://in/video.mp4" ["preset-a"; "preset-b"]) as (job & _ & H).
    apply (H None samples.unreachable). reflexivity.
Defined.

(** C7. The request built for source ["s3://in/video.mp4"] and presets
    [preset-a], [preset-b] has exactly two outputs, of orders 0 and 1, and
    the stream assemblies [stream_0] for [preset-a] and [stream_1] for
    [preset-b]; and whenever the backend accepts the submitted request,
    [TranscodeWithPresets] returns a job status with provider name
    ["elementalconductor"], the id of the backend's response, and the
    status queued. *)
Theorem TranscodeWithPresets_accepted
    (backend : elementalconductor.Backend)
    (p : elementalconductor.elementalConductorProvider) :
  (exists job : wire.Job,
     elementalconductor.newJob p "s3://in/video.mp4" ["preset-a"; "preset-b"] = Ok job
     /\ wire.OutputGroup_Output (wire.Job_OutputGroup job)
        = [ {| wire.Output_StreamAssemblyName := "stream_0";
               wire.Output_Order := 0;
               wire.Output_Extension := ".mp4" |};
            {| wire.Output_StreamAssemblyName := "stream_1";
               wire.Output_Order := 1;
               wire.Output_Extension := ".mp4" |} ]
     /\ wire.Job_StreamAssembly job
        = [ {| wire.StreamAssembly_Name := "stream_0";
               wire.StreamAssembly_Preset := "preset-a" |};
            {| wire.StreamAssembly_Name := "stream_1";
               wire.StreamAssembly_Preset := "preset-b" |} ])
  /\ (forall (source : string) (presets : list string),
        exists job : wire.Job,
          elementalconductor.newJob p source presets = Ok job
          /\ forall resp : wire.Job,
               elementalconductor.PostJob backend (elementalconductor.client p) job
               = (Some resp, None) ->
               elementalconductor.TranscodeWithPresets backend p source presets
               = Ok (Some {| provider.JobStatus_ProviderName := "elementalconductor";
                             provider.JobStatus_ProviderJobID :=
                               elementalconductor.GetID backend resp;
                             provider.JobStatus_Status := provider.StatusQueued;
                             provider.JobStatus_ProviderStatus := None |},
                     None)).
Proof.
  split.
  - destruct (newJob_Ok p "s3://in/video.mp4" ["preset-a"; "preset-b"]) as (d & _ & Hjob).
    eexists. split; [exact Hjob|]. split; reflexivity.
  - intros source presets.
    destruct (newJob_Ok p source presets) as (d & _ & Hjob).
    eexists. split; [exact Hjob|].
    intros resp Hpost. unfold elementalconductor.TranscodeWithPresets.
    rewrite Hjob. cbn [bind]. rewrite Hpost. reflexivity.
Qed.

Lemma TranscodeWithPresets_accepted_witness :
  elementalconductor.TranscodeWithPresets samples.accepting samples.p
    "s3://in/video.mp4" ["preset-a"; "preset-b"]
  = Ok (Some {| provider.JobStatus_ProviderName := "elementalconductor";
                provider.JobStatus_ProviderJobID := "/jobs/7";
                provider.JobStatus_Status := provider.StatusQueued;
                provider.JobStatus_ProviderStatus := None |},
        None).
Proof.
  destruct (TranscodeWithPresets_accepted samples.accepting samples.p) as [_ H].
  destruct (H "s3://in/video.mp4" ["preset-a"; "preset-b"]) as (job & _ & Hacc).
  apply (Hacc samples.finishedJob). reflexivity.
Defined.

(** ** The status detail *)

Section StatusDetail.
Import wire provider elementalconductor.

Lemma providerStatusOf_lookup (resp : Job) :
  let detail := providerStatusOf resp in
  detail !! "status" = Some (VString (Job_Status resp))
  /\ detail !! "pct_complete" = Some (VString (strconv.Itoa (Job_PercentComplete resp)))
  /\ detail !! "submitted" = Some (VDateTime (Job_Submitted resp))
  /\ detail !! "start_time"
     = (if IsZero (Job_StartTime resp) then None
        else Some (VDateTime (Job_StartTime resp)))
  /\ detail !! "complete_time"
     = (if IsZero (Job_CompleteTime resp) then None
        else Some (VDateTime (Job_CompleteTime resp)))
  /\ detail !! "errored_time"
     = (if IsZero (Job_ErroredTime resp) then None
        else Some (VDateTime (Job_ErroredTime resp)))
  /\ detail !! "error_messages"
     = (match Job_ErrorMessages resp with
        | [] => None
        | _ :: _ => Some (VJobErrors (Job_ErrorMessages resp))
        end).
Proof.
  cbv zeta. unfold providerStatusOf.
  destruct (IsZero (Job_StartTime resp)), (IsZero (Job_CompleteTime resp)),
    (IsZero (Job_ErroredTime resp)), (Job_ErrorMessages resp) as [|e errs];
    cbn [negb List.length Z.of_nat Z.ltb Z.compare];
    repeat split; by simplify_map_eq.
Qed.

Lemma providerStatusOf_keys (resp : Job) (key : string) :
  is_Some (providerStatusOf resp !! key) ->
  In key ["status"; "pct_complete"; "submitted"; "start_time"; "complete_time";
          "errored_time"; "error_messages"].
Proof.
  unfold providerStatusOf.
  destruct (negb (IsZero (Job_StartTime resp))),
    (negb (IsZero (Job_CompleteTime resp))),
    (negb (IsZero (Job_ErroredTime resp))),
    (0 <? Z.of_nat (List.length (Job_ErrorMessages resp)));
    repeat (rewrite lookup_insert; case_decide;
            [subst key; intros _; simpl;
             repeat (first [left; reflexivity | right])|]);
    rewrite lookup_empty; intros [? ?]; discriminate.
Qed.

End StatusDetail.

(** The detail map keeps the submission time of a response whose
    timestamps are all zero: the key [submitted] is not among the keys
    that are present only for a non-zero timestamp. *)
Lemma statusDetail_submitted_when_zero :
  ~ (forall resp : wire.Job,
       let detail := elementalconductor.providerStatusOf resp in
       detail !! "pct_complete"
       = Some (provider.VString (strconv.Itoa (wire.Job_PercentComplete resp)))
       /\ (forall (key : string) (field : wire.Job -> wire.DateTime),
             In (key, field) elementalconductor.timestampFields ->
             (is_Some (detail !! key) <-> wire.IsZero (field resp) = false))
       /\ (is_Some (detail !! "error_messages") <-> wire.Job_ErrorMessages resp <> [])).
Proof.
  intros Hclaim.
  destruct (Hclaim samples.zeroJob) as (_ & Htimes & _).
  destruct (Htimes "submitted" wire.Job_Submitted (or_introl eq_refl)) as [Hzero _].
  destruct (providerStatusOf_lookup samples.zeroJob) as (_ & _ & Hsub & _).
  cbv zeta in Hzero. rewrite Hsub in Hzero.
  discriminate (Hzero (mk_is_Some _ _ eq_refl)).
Qed.

(** C4, amended. For every native job response the status detail built by
    [JobStatus] holds the native status, the percent-complete value as a
    decimal string, and the submission time, whatever their values; it
    holds [start_time], [complete_time] and [errored_time] exactly when
    the respective timestamp is not zero, and [error_messages] exactly
    when the list of error messages is not empty; it holds no other key. *)
Theorem JobStatus_statusDetail
    (mapLower : string -> string) (backend : elementalconductor.Backend)
    (p : elementalconductor.elementalConductorProvider)
    (id : string) (resp : wire.Job)
    (Hget : elementalconductor.GetJob backend (elementalconductor.client p) id
            = (Some resp, None)) :
  exists detail : gmap string provider.Value,
    elementalconductor.JobStatus mapLower backend p id
    = Ok (Some {| provider.JobStatus_ProviderName := "elementalconductor";
                  provider.JobStatus_ProviderJobID := elementalconductor.GetID backend resp;
                  provider.JobStatus_Status :=
                    elementalconductor.statusMap mapLower p (wire.Job_Status resp);
                  provider.JobStatus_ProviderStatus := Some detail |},
          None)
    /\ detail !! "status" = Some (provider.VString (wire.Job_Status resp))
    /\ detail !! "pct_complete"
       = Some (provider.VString (strconv.Itoa (wire.Job_PercentComplete resp)))
    /\ detail !! "submitted" = Some (provider.VDateTime (wire.Job_Submitted resp))
    /\ detail !! "start_time"
       = (if wire.IsZero (wire.Job_StartTime resp) then None
          else Some (provider.VDateTime (wire.Job_StartTime resp)))
    /\ detail !! "complete_time"
       = (if wire.IsZero (wire.Job_CompleteTime resp) then None
          else Some (provider.VDateTime (wire.Job_CompleteTime resp)))
    /\ detail !! "errored_time"
       = (if wire.IsZero (wire.Job_ErroredTime resp) then None
          else Some (provider.VDateTime (wire.Job_ErroredTime resp)))
    /\ detail !! "error_messages"
       = (match wire.Job_ErrorMessages resp with
          | [] => None
          | _ :: _ => Some (provider.VJobErrors (wire.Job_ErrorMessages resp))
          end)
    /\ (forall key : string,
          is_Some (detail !! key) ->
          In key ["status"; "pct_complete"; "submitted"; "start_time";
                  "complete_time"; "errored_time"; "error_messages"]).
Proof.
  exists (elementalconductor.providerStatusOf resp).
  split.
  - unfold elementalconductor.JobStatus. rewrite Hget. reflexivity.
  - destruct (providerStatusOf_lookup resp) as (H1 & H2 & H3 & H4 & H5 & H6 & H7).
    repeat (split; [assumption|]).
    intros key. apply providerStatusOf_keys.
Qed.

Lemma JobStatus_statusDetail_witness :
  elementalconductor.GetJob samples.accepting (elementalconductor.client samples.p) "7"
  = (Some samples.finishedJob, None)
  /\ exists detail : gmap string provider.Value,
       elementalconductor.JobStatus (fun s => s) samples.accepting samples.p "7"
       = Ok (Some {| provider.JobStatus_ProviderName := "elementalconductor";
                     provider.JobStatus_ProviderJobID := "/jobs/7";
                     provider.JobStatus_Status := provider.StatusFinished;
                     provider.JobStatus_ProviderStatus := Some detail |},
             None)
       /\ detail !! "pct_complete" = Some (provider.VString "100")
       /\ detail !! "complete_time"
          = Some (provider.VDateTime {| wire.sec := 63600000600; wire.nsec := 500 |})
       /\ detail !! "errored_time" = None
       /\ detail !! "error_messages" = None.
Proof.
  split; [reflexivity|].
  destruct (JobStatus_statusDetail (fun s => s) samples.accepting samples.p "7"
              samples.finishedJob eq_refl)
    as (detail & Hjs & _ & Hpct & _ & _ & Hcomplete & Herrored & Hmsgs & _).
  exists detail.
  split; [exact Hjs|]. split; [exact Hpct|]. split; [exact Hcomplete|].
  split; [exact Herrored | exact Hmsgs].
Defined.

(** ** Building a provider *)

Section Factories.
Import config.


Lemma elementalConductorFactory_accepts (cfg : Config) :
  ElementalConductor_Host (Config_ElementalConductor cfg) <> "" ->
  ElementalConductor_UserLogin (Config_ElementalConductor cfg) <> "" ->
  ElementalConductor_APIKey (Config_ElementalConductor cfg) <> "" ->
  ElementalConductor_AuthExpires (Config_ElementalConductor cfg) <> 0 ->
  exists provider : elementalconductor.elementalConductorProvider,
    elementalconductor.elementalConductorFactory cfg
    = ((Some provider, None), [CallNewClient])
    /\ elementalconductor.config provider = cfg
    /\ wire.Client_Destination (elementalconductor.client provider)
       = ElementalConductor_Destination (Config_ElementalConductor cfg).
Proof.
  intros Hh Hu Hk He. unfold elementalconductor.elementalConductorFactory.
  apply String.eqb_neq in Hh, Hu, Hk. apply Z.eqb_neq in He.
  rewrite Hh, Hu, Hk, He. simpl.
  eexists. split; [reflexivity|]. split; reflexivity.
Qed.


Lemma mediaConvertFactory_absent_section
    (NewSession : mediaconvert.awsConfig ->
                  option mediaconvert.Session * option provider.error)
    (cfg : Config) :
  Config_MediaConvert cfg = None ->
  exists msg : string, mediaconvert.mediaConvertFactory NewSession cfg = Panic msg.
Proof.
  intros Hmc. unfold mediaconvert.mediaConvertFactory. rewrite Hmc.
  eexists. reflexivity.
Qed.

End Factories.




(** * Further properties of the provider *)

(** ** Renditions *)

Section RenditionFacts.
Import wire elementalconductor.

Lemma stream_name_inj (i j : Z) :
  0 <= i -> 0 <= j ->
  "stream_" ++ strconv.Itoa i = "stream_" ++ strconv.Itoa j -> i = j.
Proof.
  intros Hi Hj Heq. simpl in Heq. injection Heq as Heq.
  apply Itoa_inj; assumption.
Qed.

Lemma build_lookup_output (presets : list string) (i : nat) (o : Output) :
  (buildOutputsAndStreamAssemblies presets).1 !! i = Some o ->
  Output_StreamAssemblyName o = "stream_" ++ strconv.Itoa (Z.of_nat i).
Proof.
  intros Ho.
  assert (i < List.length presets)%nat as Hi.
  { rewrite <- (proj1 (buildOutputsAndStreamAssemblies_lengths presets)).
    apply lookup_lt_is_Some. eauto. }
  destruct (lookup_lt_is_Some_2 presets i Hi) as [preset Hp].
  destruct (rangePresets_lookup presets 0 [] [] i preset Hp) as [H1 _].
  simpl in H1. unfold buildOutputsAndStreamAssemblies in Ho.
  rewrite H1 in Ho. injection Ho as <-. reflexivity.
Qed.

Lemma build_lookup_assembly (presets : list string) (i : nat) (a : StreamAssembly) :
  (buildOutputsAndStreamAssemblies presets).2 !! i = Some a ->
  StreamAssembly_Name a = "stream_" ++ strconv.Itoa (Z.of_nat i)
  /\ presets !! i = Some (StreamAssembly_Preset a).
Proof.
  intros Ha.
  assert (i < List.length presets)%nat as Hi.
  { rewrite <- (proj2 (buildOutputsAndStreamAssemblies_lengths presets)).
    apply lookup_lt_is_Some. eauto. }
  destruct (lookup_lt_is_Some_2 presets i Hi) as [preset Hp].
  destruct (rangePresets_lookup presets 0 [] [] i preset Hp) as [_ H2].
  simpl in H2. unfold buildOutputsAndStreamAssemblies in Ha.
  rewrite H2 in Ha. injection Ha as <-. split; [reflexivity | exact Hp].
Qed.

(** The loop only ever extends the two slices it was given. *)
Lemma rangePresets_extends (presets : list string) :
  forall index outs sas,
    exists moreOutputs moreAssemblies,
      rangePresets index presets outs sas
      = ((outs ++ moreOutputs)%list, (sas ++ moreAssemblies)%list)
      /\ List.length moreOutputs = List.length presets
      /\ List.length moreAssemblies = List.length presets.
Proof.
  induction presets as [|preset rest IH]; intros index outs sas; cbn [rangePresets].
  - exists [], []. rewrite !app_nil_r. repeat split.
  - destruct (IH (index + 1)
                (outs ++ [{| Output_StreamAssemblyName := "stream_" ++ strconv.Itoa index;
                             Output_Order := index;
                             Output_Extension := defaultExtension |}])%list
                (sas ++ [{| StreamAssembly_Name := "stream_" ++ strconv.Itoa index;
                            StreamAssembly_Preset := preset |}])%list)
      as (mo & ma & Heq & Hlo & Hla).
    rewrite Heq, <- !app_assoc.
    eexists _, _. split; [reflexivity|]. simpl. split; lia.
Qed.

Lemma rangePresets_app (presets more : list string) :
  forall index outs sas,
    rangePresets index (presets ++ more) outs sas
    = rangePresets (index + Z.of_nat (List.length presets)) more
        (rangePresets index presets outs sas).1
        (rangePresets index presets outs sas).2.
Proof.
  induction presets as [|preset rest IH]; intros index outs sas.
  - simpl. rewrite Z.add_0_r. reflexivity.
  - cbn [rangePresets app List.length]. rewrite IH.
    replace (index + 1 + Z.of_nat (List.length rest))
      with (index + Z.of_nat (S (List.length rest))) by lia.
    reflexivity.
Qed.

End RenditionFacts.

(** X1. The names the builder gives are pairwise distinct: no two outputs
    share a stream-assembly name and no two stream assemblies share a name,
    so the name of an output picks out exactly one stream assembly, the one
    at the output's own position. *)
Theorem buildOutputsAndStreamAssemblies_names_distinct (presets : list string) :
  let outputs := (elementalconductor.buildOutputsAndStreamAssemblies presets).1 in
  let assemblies := (elementalconductor.buildOutputsAndStreamAssemblies presets).2 in
  NoDup (map wire.Output_StreamAssemblyName outputs)
  /\ NoDup (map wire.StreamAssembly_Name assemblies)
  /\ forall (i j : nat) (o : wire.Output) (a : wire.StreamAssembly),
       outputs !! i = Some o -> assemblies !! j = Some a ->
       wire.Output_StreamAssemblyName o = wire.StreamAssembly_Name a -> i = j.
Proof.
  cbv zeta. split; [|split].
  - change (NoDup (wire.Output_StreamAssemblyName <$>
                     (elementalconductor.buildOutputsAndStreamAssemblies presets).1)).
    apply NoDup_alt. intros i j x Hi Hj.
    rewrite list_lookup_fmap in Hi, Hj.
    destruct (_ !! i) as [oi|] eqn:Hoi; [|discriminate].
    destruct (_ !! j) as [oj|] eqn:Hoj; [|discriminate].
    simpl in Hi, Hj. injection Hi as Hi. injection Hj as Hj.
    apply build_lookup_output in Hoi, Hoj.
    apply Nat2Z.inj, stream_name_inj; [lia | lia | congruence].
  - change (NoDup (wire.StreamAssembly_Name <$>
                     (elementalconductor.buildOutputsAndStreamAssemblies presets).2)).
    apply NoDup_alt. intros i j x Hi Hj.
    rewrite list_lookup_fmap in Hi, Hj.
    destruct (_ !! i) as [ai|] eqn:Hai; [|discriminate].
    destruct (_ !! j) as [aj|] eqn:Haj; [|discriminate].
    simpl in Hi, Hj. injection Hi as Hi. injection Hj as Hj.
    apply build_lookup_assembly in Hai as [Hai _], Haj as [Haj _].
    apply Nat2Z.inj, stream_name_inj; [lia | lia | congruence].
  - intros i j o a Ho Ha Heq.
    apply build_lookup_output in Ho. apply build_lookup_assembly in Ha as [Ha _].
    apply Nat2Z.inj, stream_name_inj; [lia | lia | congruence].
Qed.

Lemma buildOutputsAndStreamAssemblies_names_distinct_witness :
  (elementalconductor.buildOutputsAndStreamAssemblies ["a"; "b"; "a"]).1 !! 2%nat
  = Some {| wire.Output_StreamAssemblyName := "stream_2";
            wire.Output_Order := 2;
            wire.Output_Extension := ".mp4" |}
  /\ (elementalconductor.buildOutputsAndStreamAssemblies ["a"; "b"; "a"]).2 !! 2%nat
     = Some {| wire.StreamAssembly_Name := "stream_2";
               wire.StreamAssembly_Preset := "a" |}
  /\ 2%nat = 2%nat.
Proof.
  split; [reflexivity|]. split; [reflexivity|].
  destruct (buildOutputsAndStreamAssemblies_names_distinct ["a"; "b"; "a"]) as (_ & _ & H).
  apply (H 2%nat 2%nat
           {| wire.Output_StreamAssemblyName := "stream_2";
              wire.Output_Order := 2;
              wire.Output_Extension := ".mp4" |}
           {| wire.StreamAssembly_Name := "stream_2";
              wire.StreamAssembly_Preset := "a" |});
    reflexivity.
Defined.

(** X2. Presets added at the end leave the renditions of the earlier
    presets as they were: the outputs and stream assemblies built for
    [presets ++ more] start with those built for [presets], followed by one
    of each for every preset of [more]. *)
Theorem buildOutputsAndStreamAssemblies_app (presets more : list string) :
  exists (moreOutputs : list wire.Output) (moreAssemblies : list wire.StreamAssembly),
    (elementalconductor.buildOutputsAndStreamAssemblies (presets ++ more)).1
    = ((elementalconductor.buildOutputsAndStreamAssemblies presets).1 ++ moreOutputs)%list
    /\ (elementalconductor.buildOutputsAndStreamAssemblies (presets ++ more)).2
       = ((elementalconductor.buildOutputsAndStreamAssemblies presets).2
            ++ moreAssemblies)%list
    /\ List.length moreOutputs = List.length more
    /\ List.length moreAssemblies = List.length more.
Proof.
  unfold elementalconductor.buildOutputsAndStreamAssemblies.
  rewrite rangePresets_app.
  destruct (rangePresets_extends more (0 + Z.of_nat (List.length presets))
              (elementalconductor.rangePresets 0 presets [] []).1
              (elementalconductor.rangePresets 0 presets [] []).2)
    as (mo & ma & Heq & Hlo & Hla).
  exists mo, ma. rewrite Heq. repeat split; assumption.
Qed.

(** ** More on the destination *)

Section DestinationEdges.
Import bytes wire elementalconductor.

Lemma repeatByte_add (c : ascii) (a b : nat) :
  repeatByte c a ++ repeatByte c b = repeatByte c (a + b).
Proof. induction a as [|a IH]; simpl; [reflexivity | now rewrite IH]. Qed.

Lemma TrimRight_append_repeat (root : string) (k : nat) :
  strings.TrimRight (root ++ repeatByte "/" k) "/" = strings.TrimRight root "/".
Proof.
  destruct (TrimRight_isTrimmedRoot root) as [[k0 Hk0] Hlast].
  rewrite Hk0 at 1. rewrite append_assoc, repeatByte_add.
  apply TrimRight_trimmed. exact Hlast.
Qed.

Lemma lastByte_split (s : string) (c : ascii) :
  lastByte s = Some c -> exists q : string, s = q ++ String c "".
Proof.
  induction s as [|a s IH]; [discriminate|].
  destruct s as [|b s'].
  - simpl. intros [= ->]. exists "". reflexivity.
  - intros Hl. destruct (IH Hl) as [q Hq].
    exists (String a q). simpl. rewrite <- Hq. reflexivity.
Qed.

Lemma isStem_no_separator (seg stem : string) :
  contains seg "/" = false -> isStem seg stem -> contains stem "/" = false.
Proof.
  intros Hseg [[_ ->] | (e & -> & _)]; [assumption|].
  rewrite contains_append in Hseg. apply orb_false_elim in Hseg as [Hs _].
  exact Hs.
Qed.

(** The derived path, with the trimmed root computed by the code. *)
Lemma buildFullDestination_path (p : elementalConductorProvider)
    (source seg stem : string) :
  isFinalSegment source seg -> isStem seg stem ->
  buildFullDestination p source
  = Ok (strings.TrimRight (Client_Destination (client p)) "/" ++ "/" ++ stem).
Proof.
  intros Hseg Hstem.
  apply (buildFullDestination_decomposed p source _ seg stem); try assumption.
  apply TrimRight_isTrimmedRoot.
Qed.

Lemma append_longer (a b : string) (c : ascii) : a <> a ++ String c b.
Proof.
  intros H. apply (f_equal String.length) in H.
  rewrite length_append in H. simpl in H. lia.
Qed.

End DestinationEdges.

(** X3. The number of separators at the end of the destination root does
    not matter: a provider whose root has more ['/'] at its end derives the
    same path from every source. *)
Theorem buildFullDestination_root_slashes
    (p1 p2 : elementalconductor.elementalConductorProvider) (k : nat) (source : string)
    (Hroot : wire.Client_Destination (elementalconductor.client p2)
             = wire.Client_Destination (elementalconductor.client p1)
               ++ bytes.repeatByte "/" k) :
  elementalconductor.buildFullDestination p2 source
  = elementalconductor.buildFullDestination p1 source.
Proof.
  unfold elementalconductor.buildFullDestination.
  rewrite Hroot, TrimRight_append_repeat. reflexivity.
Qed.

Lemma buildFullDestination_root_slashes_witness :
  elementalconductor.buildFullDestination samples.pSlashes "/a/b/clip.mov"
  = elementalconductor.buildFullDestination samples.p "/a/b/clip.mov".
Proof.
  apply (buildFullDestination_root_slashes samples.p samples.pSlashes 3).
  reflexivity.
Defined.

(** X4. A source that names no file, the empty string or one that ends in
    ['/'], is sent to the trimmed root followed by a lone ['/']: the file
    name part of the derived path is empty. *)
Theorem buildFullDestination_no_file_name
    (p : elementalconductor.elementalConductorProvider) (source : string)
    (Hsource : source = "" \/ bytes.lastByte source = Some "/"%char) :
  elementalconductor.buildFullDestination p source
  = Ok (strings.TrimRight (wire.Client_Destination (elementalconductor.client p)) "/"
        ++ "/").
Proof.
  apply (buildFullDestination_path p source "" "").
  - split; [reflexivity|].
    destruct Hsource as [-> | Hlast]; [left; reflexivity|].
    right. apply lastByte_split in Hlast as [q ->]. exists q. reflexivity.
  - left. split; reflexivity.
Qed.

Lemma buildFullDestination_no_file_name_witness :
  bytes.lastByte "s3://in/folder/" = Some "/"%char
  /\ elementalconductor.buildFullDestination samples.p "s3://in/folder/"
     = Ok "s3://bucket/out/".
Proof.
  split; [reflexivity|].
  apply (buildFullDestination_no_file_name samples.p "s3://in/folder/").
  right. reflexivity.
Defined.

(** X5. A final segment that is all extension, a dot followed by bytes
    without a further dot such as [.profile], loses all of its name: the
    derived path is again the trimmed root followed by a lone ['/']. *)
Theorem buildFullDestination_dot_file
    (p : elementalconductor.elementalConductorProvider) (source e : string)
    (Hseg : bytes.isFinalSegment source ("." ++ e))
    (Hdot : bytes.contains e "." = false) :
  elementalconductor.buildFullDestination p source
  = Ok (strings.TrimRight (wire.Client_Destination (elementalconductor.client p)) "/"
        ++ "/").
Proof.
  apply (buildFullDestination_path p source ("." ++ e) ""); [exact Hseg|].
  right. exists e. split; [reflexivity | exact Hdot].
Qed.

Lemma buildFullDestination_dot_file_witness :
  elementalconductor.buildFullDestination samples.p "/home/user/.profile"
  = Ok "s3://bucket/out/".
Proof.
  apply (buildFullDestination_dot_file samples.p "/home/user/.profile" "profile").
  - split; [reflexivity | right; exists "/home/user"; reflexivity].
  - reflexivity.
Defined.

(** X6. Under a destination root that is empty or made of separators only,
    the derived path is ['/'] followed by the stem of the source, which
    holds no ['/']: the output lands at the top of the name space. *)
Theorem buildFullDestination_without_root
    (p : elementalconductor.elementalConductorProvider) (k : nat) (source : string)
    (Hroot : wire.Client_Destination (elementalconductor.client p)
             = bytes.repeatByte "/" k) :
  exists seg stem : string,
    bytes.isFinalSegment source seg
    /\ bytes.isStem seg stem
    /\ bytes.contains stem "/" = false
    /\ elementalconductor.buildFullDestination p source = Ok ("/" ++ stem).
Proof.
  destruct (final_segment_exists source) as [seg Hseg].
  destruct (stem_exists seg) as [stem Hstem].
  exists seg, stem. split; [exact Hseg|]. split; [exact Hstem|].
  split; [exact (isStem_no_separator seg stem (proj1 Hseg) Hstem)|].
  rewrite (buildFullDestination_path p source seg stem Hseg Hstem).
  rewrite Hroot, TrimRight_repeatByte. reflexivity.
Qed.

Lemma buildFullDestination_without_root_witness :
  wire.Client_Destination (elementalconductor.client samples.pNoRoot)
  = bytes.repeatByte "/" 0
  /\ elementalconductor.buildFullDestination samples.pNoRoot "/a/b/clip.mov"
     = Ok "/clip"
  /\ exists seg stem : string,
       bytes.isFinalSegment "/a/b/clip.mov" seg
       /\ bytes.isStem seg stem
       /\ bytes.contains stem "/" = false
       /\ elementalconductor.buildFullDestination samples.pNoRoot "/a/b/clip.mov"
          = Ok ("/" ++ stem).
Proof.
  split; [reflexivity|]. split; [reflexivity|].
  exact (buildFullDestination_without_root samples.pNoRoot 0 "/a/b/clip.mov" eq_refl).
Defined.

(** X7. Deriving a destination from a derived path gives that path back
    exactly when the stem of the source holds no dot; a stem with a dot
    (source [a.tar.gz], stem [a.tar]) loses one more extension. *)
Theorem buildFullDestination_twice
    (p : elementalconductor.elementalConductorProvider) (source seg stem : string)
    (Hseg : bytes.isFinalSegment source seg)
    (Hstem : bytes.isStem seg stem) :
  exists path : string,
    elementalconductor.buildFullDestination p source = Ok path
    /\ (elementalconductor.buildFullDestination p path = Ok path
        <-> bytes.contains stem "." = false).
Proof.
  pose proof (isStem_no_separator seg stem (proj1 Hseg) Hstem) as Hno.
  eexists. split; [exact (buildFullDestination_path p source seg stem Hseg Hstem)|].
  set (root := strings.TrimRight (wire.Client_Destination (elementalconductor.client p)) "/").
  assert (bytes.isFinalSegment (root ++ "/" ++ stem) stem) as Hseg'
    by (split; [exact Hno | right; exists root; reflexivity]).
  split.
  - intros Hsame.
    destruct (split_at_last "." stem) as [Hdot | (q & e & Hq & He)]; [exact Hdot|].
    assert (bytes.isStem stem q) as Hstem'
      by (right; exists e; split; [exact Hq | exact He]).
    rewrite (buildFullDestination_path p _ stem q Hseg' Hstem') in Hsame.
    fold root in Hsame. injection Hsame as Hsame.
    apply (inj (String.app root)) in Hsame.
    simpl in Hsame. injection Hsame as Hsame.
    rewrite Hq in Hsame. exfalso. exact (append_longer q e "." Hsame).
  - intros Hdot.
    apply (buildFullDestination_path p _ stem stem Hseg').
    left. split; [exact Hdot | reflexivity].
Qed.

Lemma buildFullDestination_twice_witness :
  elementalconductor.buildFullDestination samples.p "/a/b/clip.mov"
  = Ok "s3://bucket/out/clip"
  /\ elementalconductor.buildFullDestination samples.p "s3://bucket/out/clip"
     = Ok "s3://bucket/out/clip"
  /\ elementalconductor.buildFullDestination samples.p "/a/b/a.tar.gz"
     = Ok "s3://bucket/out/a.tar"
  /\ elementalconductor.buildFullDestination samples.p "s3://bucket/out/a.tar"
     = Ok "s3://bucket/out/a"
  /\ exists path : string,
       elementalconductor.buildFullDestination samples.p "/a/b/clip.mov" = Ok path
       /\ (elementalconductor.buildFullDestination samples.p path = Ok path
           <-> bytes.contains "clip" "." = false).
Proof.
  repeat (split; [reflexivity|]).
  apply (buildFullDestination_twice samples.p "/a/b/clip.mov" "clip.mov" "clip").
  - split; [reflexivity | right; exists "/a/b"; reflexivity].
  - right. exists "mov". split; reflexivity.
Defined.

(** X8. The last ['/']-separated piece of the derived path is the stem of
    the source: splitting the result the way the source was split gives
    back the file name without its extension. *)
Theorem buildFullDestination_final_piece
    (p : elementalconductor.elementalConductorProvider) (source : string) :
  exists path seg stem : string,
    bytes.isFinalSegment source seg
    /\ bytes.isStem seg stem
    /\ elementalconductor.buildFullDestination p source = Ok path
    /\ last (strings.Split path "/") = Some stem
    /\ (2 <= List.length (strings.Split path "/"))%nat.
Proof.
  destruct (final_segment_exists source) as [seg Hseg].
  destruct (stem_exists seg) as [stem Hstem].
  pose proof (isStem_no_separator seg stem (proj1 Hseg) Hstem) as Hno.
  eexists _, seg, stem. split; [exact Hseg|]. split; [exact Hstem|].
  split; [exact (buildFullDestination_path p source seg stem Hseg Hstem)|].
  split; [apply Split_last; exact Hno | apply Split_separator_length].
Qed.

(** ** More on the request, on submitting and on polling *)

(** X9. In every request [newJob] builds, the input and the output
    location carry the same user name and password, the storage keys of
    the client; the output location is the path [buildFullDestination]
    derives from the source; priority, group order and group type are the
    fixed 50, 1 and [file_group_settings]. *)
Theorem newJob_locations
    (p : elementalconductor.elementalConductorProvider)
    (source : string) (presets : list string) :
  exists (job : wire.Job) (path : string),
    elementalconductor.newJob p source presets = Ok job
    /\ elementalconductor.buildFullDestination p source = Ok path
    /\ wire.Input_FileInput (wire.Job_Input job)
       = {| wire.Location_URI := source;
            wire.Location_Username :=
              wire.Client_AccessKeyID (elementalconductor.client p);
            wire.Location_Password :=
              wire.Client_SecretAccessKey (elementalconductor.client p) |}
    /\ wire.FileGroupSettings_Destination
         (wire.OutputGroup_FileGroupSettings (wire.Job_OutputGroup job))
       = {| wire.Location_URI := path;
            wire.Location_Username :=
              wire.Client_AccessKeyID (elementalconductor.client p);
            wire.Location_Password :=
              wire.Client_SecretAccessKey (elementalconductor.client p) |}
    /\ wire.Job_Priority job = 50
    /\ wire.OutputGroup_Order (wire.Job_OutputGroup job) = 1
    /\ wire.OutputGroup_Type (wire.Job_OutputGroup job) = "file_group_settings".
Proof.
  destruct (newJob_Ok p source presets) as (path & Hpath & Hjob).
  eexists _, path. split; [exact Hjob|]. split; [exact Hpath|].
  repeat split.
Qed.

(** X10. Submitting and polling hand back either a job status or an
    error, never both and never neither: whenever one of the two
    operations returns, exactly one of its two results is nil. *)
Theorem status_or_error
    (mapLower : string -> string) (backend : elementalconductor.Backend)
    (p : elementalconductor.elementalConductorProvider)
    (source : string) (presets : list string) (id : string)
    (r : option provider.JobStatus * option provider.error)
    (Hret : elementalconductor.TranscodeWithPresets backend p source presets = Ok r
            \/ elementalconductor.JobStatus mapLower backend p id = Ok r) :
  (is_Some r.1 /\ r.2 = None) \/ (r.1 = None /\ is_Some r.2).
Proof.
  destruct Hret as [Hret | Hret].
  - unfold elementalconductor.TranscodeWithPresets in Hret.
    destruct (newJob_Ok p source presets) as (path & _ & Hjob).
    rewrite Hjob in Hret. cbn [bind] in Hret.
    destruct (elementalconductor.PostJob _ _ _) as [[resp|] [err|]];
      try discriminate; injection Hret as <-; simpl; eauto.
  - unfold elementalconductor.JobStatus in Hret.
    destruct (elementalconductor.GetJob _ _ _) as [[resp|] [err|]];
      try discriminate; injection Hret as <-; simpl; eauto.
Qed.

Lemma status_or_error_witness :
  (is_Some (@None provider.JobStatus) /\ Some samples.unreachable = None)
  \/ (@None provider.JobStatus = None /\ is_Some (Some samples.unreachable)).
Proof.
  apply (status_or_error (fun s => s) samples.failing samples.p
           "s3://in/video.mp4" ["preset-a"] "7" (None, Some samples.unreachable)).
  right. reflexivity.
Defined.

(** X11. [JobStatus] panics exactly when the client answers a poll with
    neither a job nor an error: the response is read without a nil check. *)
Theorem JobStatus_panics_iff
    (mapLower : string -> string) (backend : elementalconductor.Backend)
    (p : elementalconductor.elementalConductorProvider) (id : string) :
  (exists msg : string,
     elementalconductor.JobStatus mapLower backend p id = Panic msg)
  <-> elementalconductor.GetJob backend (elementalconductor.client p) id = (None, None).
Proof.
  unfold elementalconductor.JobStatus.
  destruct (elementalconductor.GetJob _ _ _) as [[resp|] [err|]]; split;
    try (intros [msg Hmsg]; discriminate); try discriminate.
  - reflexivity.
  - intros _. eexists. reflexivity.
Qed.

Lemma JobStatus_panics_iff_witness :
  elementalconductor.GetJob samples.silent (elementalconductor.client samples.p) "7"
  = (None, None)
  /\ exists msg : string,
       elementalconductor.JobStatus (fun s => s) samples.silent samples.p "7" = Panic msg.
Proof.
  split; [reflexivity|].
  apply (JobStatus_panics_iff (fun s => s) samples.silent samples.p "7").
  reflexivity.
Defined.

Lemma some_error_messages (errs : list wire.JobError) :
  (0 <? Z.of_nat (List.length errs)) = match errs with [] => false | _ :: _ => true end.
Proof.
  destruct errs as [|e errs]; [reflexivity|].
  apply Z.ltb_lt. cbn [List.length]. lia.
Qed.

(** X12. The status detail holds between three and seven entries: the
    three that are always there and one more for each non-zero start,
    completion and error time and for a non-empty list of error messages. *)
Theorem statusDetail_size (resp : wire.Job) :
  size (elementalconductor.providerStatusOf resp)
  = (3 + (if wire.IsZero (wire.Job_StartTime resp) then 0 else 1)
       + (if wire.IsZero (wire.Job_CompleteTime resp) then 0 else 1)
       + (if wire.IsZero (wire.Job_ErroredTime resp) then 0 else 1)
       + (match wire.Job_ErrorMessages resp with [] => 0 | _ :: _ => 1 end))%nat
  /\ (3 <= size (elementalconductor.providerStatusOf resp) <= 7)%nat.
Proof.
  unfold elementalconductor.providerStatusOf. rewrite some_error_messages.
  destruct (wire.IsZero (wire.Job_StartTime resp)),
    (wire.IsZero (wire.Job_CompleteTime resp)),
    (wire.IsZero (wire.Job_ErroredTime resp)),
    (wire.Job_ErrorMessages resp) as [|e errs];
    cbn [negb];
    repeat (rewrite map_size_insert_None by (by simplify_map_eq));
    rewrite map_size_empty; simpl; lia.
Qed.

(** ** More on the status normalisation *)

Section StatusMapFacts.
Import provider elementalconductor.

Lemma lowerASCII_append (a b : string) :
  strings.lowerASCII (a ++ b) = strings.lowerASCII a ++ strings.lowerASCII b.
Proof. induction a as [|x a IH]; simpl; [reflexivity | now rewrite IH]. Qed.

Lemma isASCII_append (a b : string) :
  strings.isASCII (a ++ b) = strings.isASCII a && strings.isASCII b.
Proof.
  induction a as [|x a IH]; simpl; [reflexivity|].
  rewrite IH. now rewrite andb_assoc.
Qed.

Lemma lastByte_append_byte (a : string) (c : ascii) :
  bytes.lastByte (a ++ String c "") = Some c.
Proof.
  induction a as [|x a IH]; [reflexivity|].
  simpl. destruct (a ++ String c "") eqn:Ha; [|exact IH].
  destruct a; discriminate.
Qed.

(** A byte below ['A'] is ASCII and is its own lowercase. *)
Lemma below_letters (c : ascii) :
  (nat_of_ascii c < 65)%nat ->
  strings.isRuneSelf c = false /\ strings.lowerByte c = c.
Proof.
  intros Hc. unfold strings.isRuneSelf, strings.lowerByte, strings.isUpperASCII.
  split.
  - apply Nat.leb_gt. lia.
  - replace (65 <=? nat_of_ascii c)%nat with false
      by (symmetry; apply Nat.leb_gt; lia).
    reflexivity.
Qed.

(** No native name starts or ends with a byte below ['A']. *)
Lemma native_names_letters (name : string) (c : ascii) :
  In name native_names -> (nat_of_ascii c < 65)%nat ->
  bytes.lastByte name <> Some c
  /\ forall rest : string, name <> String c rest.
Proof.
  intros Hin Hc. unfold native_names in Hin. simpl in Hin.
  repeat (destruct Hin as [<- | Hin];
          [split; [intros [= <-] | intros rest [= <- _]];
           vm_compute in Hc; lia|]).
  destruct Hin.
Qed.

End StatusMapFacts.

(** X13. The canonical status tells which native names can have produced
    it: queued comes from [pending] only, started from [preprocessing],
    [running] or [postprocessing] only, finished from [complete],
    canceled from [cancelled], archived from [archived], each up to
    lowercasing, and failed from every string outside these seven. *)
Theorem statusMap_inversion
    (mapLower : string -> string)
    (p : elementalconductor.elementalConductorProvider) (s : string) :
  let lowered := strings.ToLower mapLower s in
  let status := elementalconductor.statusMap mapLower p s in
  (status = provider.StatusQueued <-> lowered = "pending")
  /\ (status = provider.StatusStarted
      <-> In lowered ["preprocessing"; "running"; "postprocessing"])
  /\ (status = provider.StatusFinished <-> lowered = "complete")
  /\ (status = provider.StatusCanceled <-> lowered = "cancelled")
  /\ (status = provider.StatusArchived <-> lowered = "archived")
  /\ (status = provider.StatusFailed
      <-> ~ In lowered ["pending"; "preprocessing"; "running"; "postprocessing";
                        "complete"; "cancelled"; "archived"]).
Proof.
  cbv zeta. unfold elementalconductor.statusMap.
  generalize (strings.ToLower mapLower s). intros l.
  repeat (match goal with
          | |- context [String.eqb l ?w] => destruct (String.eqb_spec l w) as [->|?]
          end; [simpl; intuition (discriminate || congruence)|]).
  simpl; intuition (discriminate || congruence).
Qed.

Lemma statusMap_inversion_witness :
  elementalconductor.statusMap (fun s => s) samples.p "Cancelled"
  = provider.StatusCanceled
  /\ strings.ToLower (fun s => s) "Cancelled" = "cancelled".
Proof.
  split; [reflexivity|].
  destruct (statusMap_inversion (fun s => s) samples.p "Cancelled")
    as (_ & _ & _ & Hcanceled & _).
  apply Hcanceled. reflexivity.
Defined.

(** X14. Native statuses are not trimmed: an ASCII status with a byte
    below ['A'] (a space, a tab, a line end, a digit, punctuation) put
    before or after it is an unknown status and maps to failed, also when
    the status itself is a native name. *)
Theorem statusMap_not_trimmed
    (mapLower : string -> string)
    (p : elementalconductor.elementalConductorProvider) (s : string) (c : ascii)
    (Hc : (nat_of_ascii c < 65)%nat)
    (Hs : strings.isASCII s = true) :
  elementalconductor.statusMap mapLower p (s ++ String c "") = provider.StatusFailed
  /\ elementalconductor.statusMap mapLower p (String c s) = provider.StatusFailed.
Proof.
  destruct (below_letters c Hc) as [Hself Hlow].
  split.
  - apply (statusMap_table mapLower p (s ++ String c "")).
    unfold strings.ToLower.
    rewrite isASCII_append, Hs. simpl. rewrite Hself. simpl.
    rewrite lowerASCII_append. simpl. rewrite Hlow.
    intros Hin.
    destruct (native_names_letters _ c Hin Hc) as [Hlast _].
    apply Hlast. apply lastByte_append_byte.
  - apply (statusMap_table mapLower p (String c s)).
    unfold strings.ToLower. simpl. rewrite Hself, Hs. simpl. rewrite Hlow.
    intros Hin.
    destruct (native_names_letters _ c Hin Hc) as [_ Hfirst].
    exact (Hfirst _ eq_refl).
Qed.

Lemma statusMap_not_trimmed_witness :
  elementalconductor.statusMap (fun s => s) samples.p "complete "
  = provider.StatusFailed
  /\ elementalconductor.statusMap (fun s => s) samples.p " complete"
     = provider.StatusFailed.
Proof.
  apply (statusMap_not_trimmed (fun s => s) samples.p "complete" " ").
  - vm_compute. lia.
  - reflexivity.
Defined.

(** ** More on building a provider *)

(** X15. The Elemental Conductor factory has two outcomes. If the host,
    the user login or the API key is empty or the authentication expiry is
    zero, it returns its invalid-configuration error, no provider, and has
    built no client. Otherwise it returns no error and a provider that
    keeps the configuration and a client built, in one call, from the
    seven configured values; empty storage keys or an empty destination
    are not refused. *)
Theorem elementalConductorFactory_outcomes (cfg : config.Config) :
  let ec := config.Config_ElementalConductor cfg in
  ((config.ElementalConductor_Host ec = ""
    \/ config.ElementalConductor_UserLogin ec = ""
    \/ config.ElementalConductor_APIKey ec = ""
    \/ config.ElementalConductor_AuthExpires ec = 0)
   /\ elementalconductor.elementalConductorFactory cfg
      = ((None, Some elementalconductor.errElementalConductorInvalidConfig), []))
  \/ (config.ElementalConductor_Host ec <> ""
      /\ config.ElementalConductor_UserLogin ec <> ""
      /\ config.ElementalConductor_APIKey ec <> ""
      /\ config.ElementalConductor_AuthExpires ec <> 0
      /\ elementalconductor.elementalConductorFactory cfg
         = ((Some {| elementalconductor.config := cfg;
                     elementalconductor.client :=
                       {| wire.Client_Host := config.ElementalConductor_Host ec;
                          wire.Client_UserLogin := config.ElementalConductor_UserLogin ec;
                          wire.Client_APIKey := config.ElementalConductor_APIKey ec;
                          wire.Client_AuthExpires :=
                            config.ElementalConductor_AuthExpires ec;
                          wire.Client_AccessKeyID :=
                            config.ElementalConductor_AccessKeyID ec;
                          wire.Client_SecretAccessKey :=
                            config.ElementalConductor_SecretAccessKey ec;
                          wire.Client_Destination :=
                            config.ElementalConductor_Destination ec |} |},
             None),
            [CallNewClient])).
Proof.
  cbv zeta. unfold elementalconductor.elementalConductorFactory.
  destruct (String.eqb_spec
              (config.ElementalConductor_Host (config.Config_ElementalConductor cfg)) "")
    as [Hh|Hh]; [left; split; [tauto | reflexivity]|].
  destruct (String.eqb_spec
              (config.ElementalConductor_UserLogin (config.Config_ElementalConductor cfg)) "")
    as [Hu|Hu]; [left; split; [tauto | reflexivity]|].
  destruct (String.eqb_spec
              (config.ElementalConductor_APIKey (config.Config_ElementalConductor cfg)) "")
    as [Hk|Hk]; [left; split; [tauto | reflexivity]|].
  destruct (Z.eqb_spec
              (config.ElementalConductor_AuthExpires (config.Config_ElementalConductor cfg)) 0)
    as [He|He]; [left; split; [tauto | reflexivity]|].
  right. repeat (split; [assumption|]). reflexivity.
Qed.

(** X16. From configuration to request: a provider the factory builds from
    a configuration with its four required values puts the configured
    storage keys on both locations of every request, and sends the output
    to the configured destination without its trailing separators, then
    ['/'], then the stem of the source. *)
Theorem factory_then_newJob (cfg : config.Config)
    (source : string) (presets : list string)
    (Hhost : config.ElementalConductor_Host (config.Config_ElementalConductor cfg) <> "")
    (Hlogin : config.ElementalConductor_UserLogin (config.Config_ElementalConductor cfg)
              <> "")
    (Hkey : config.ElementalConductor_APIKey (config.Config_ElementalConductor cfg) <> "")
    (Hexpires : config.ElementalConductor_AuthExpires (config.Config_ElementalConductor cfg)
                <> 0) :
  exists (made : elementalconductor.elementalConductorProvider) (job : wire.Job)
         (seg stem : string),
    elementalconductor.elementalConductorFactory cfg = ((Some made, None), [CallNewClient])
    /\ elementalconductor.newJob made source presets = Ok job
    /\ bytes.isFinalSegment source seg
    /\ bytes.isStem seg stem
    /\ wire.Input_FileInput (wire.Job_Input job)
       = {| wire.Location_URI := source;
            wire.Location_Username :=
              config.ElementalConductor_AccessKeyID (config.Config_ElementalConductor cfg);
            wire.Location_Password :=
              config.ElementalConductor_SecretAccessKey
                (config.Config_ElementalConductor cfg) |}
    /\ wire.FileGroupSettings_Destination
         (wire.OutputGroup_FileGroupSettings (wire.Job_OutputGroup job))
       = {| wire.Location_URI :=
              strings.TrimRight
                (config.ElementalConductor_Destination
                   (config.Config_ElementalConductor cfg)) "/"
              ++ "/" ++ stem;
            wire.Location_Username :=
              config.ElementalConductor_AccessKeyID (config.Config_ElementalConductor cfg);
            wire.Location_Password :=
              config.ElementalConductor_SecretAccessKey
                (config.Config_ElementalConductor cfg) |}.
Proof.
  destruct (final_segment_exists source) as [seg Hseg].
  destruct (stem_exists seg) as [stem Hstem].
  set (ec := config.Config_ElementalConductor cfg) in *.
  set (made := {| elementalconductor.config := cfg;
                  elementalconductor.client :=
                    wire.NewClient
                      (config.ElementalConductor_Host ec)
                      (config.ElementalConductor_UserLogin ec)
                      (config.ElementalConductor_APIKey ec)
                      (config.ElementalConductor_AuthExpires ec)
                      (config.ElementalConductor_AccessKeyID ec)
                      (config.ElementalConductor_SecretAccessKey ec)
                      (config.ElementalConductor_Destination ec) |}).
  destruct (newJob_Ok made source presets) as (path & Hpath & Hjob).
  rewrite (buildFullDestination_path made source seg stem Hseg Hstem) in Hpath.
  injection Hpath as <-.
  eexists made, _, seg, stem. split.
  { unfold elementalconductor.elementalConductorFactory. fold ec.
    apply String.eqb_neq in Hhost, Hlogin, Hkey. apply Z.eqb_neq in Hexpires.
    rewrite Hhost, Hlogin, Hkey, Hexpires. reflexivity. }
  split; [exact Hjob|]. split; [exact Hseg|]. split; [exact Hstem|].
  split; reflexivity.
Qed.

Lemma factory_then_newJob_witness :
  exists (made : elementalconductor.elementalConductorProvider) (job : wire.Job)
         (seg stem : string),
    elementalconductor.elementalConductorFactory samples.cfg
    = ((Some made, None), [CallNewClient])
    /\ elementalconductor.newJob made "s3://in/video.mp4" ["preset-a"; "preset-b"] = Ok job
    /\ bytes.isFinalSegment "s3://in/video.mp4" seg
    /\ bytes.isStem seg stem
    /\ wire.Input_FileInput (wire.Job_Input job)
       = {| wire.Location_URI := "s3://in/video.mp4";
            wire.Location_Username := "AKID";
            wire.Location_Password := "secret" |}
    /\ wire.FileGroupSettings_Destination
         (wire.OutputGroup_FileGroupSettings (wire.Job_OutputGroup job))
       = {| wire.Location_URI := "s3://bucket/out" ++ "/" ++ stem;
            wire.Location_Username := "AKID";
            wire.Location_Password := "secret" |}.
Proof.
  apply (factory_then_newJob samples.cfg "s3://in/video.mp4" ["preset-a"; "preset-b"]);
    discriminate.
Defined.

(** X17. The Media Convert factory has three outcomes. Without a Media
    Convert section it panics. With a section in which the access key or
    the secret is empty it returns its invalid-configuration error and no
    provider without a single call into the SDK. With both keys it calls,
    in this order, [NewStaticCredentials], [aws.NewConfig],
    [WithCredentials], [WithRegion] and [session.NewSession], and after
    these nothing, or [mediaconvert.New] alone. *)
Theorem mediaConvertFactory_calls
    (NewSession : mediaconvert.awsConfig ->
                  option mediaconvert.Session * option provider.error)
    (cfg : config.Config) :
  (config.Config_MediaConvert cfg = None
   /\ exists msg : string, mediaconvert.mediaConvertFactory NewSession cfg = Panic msg)
  \/ (exists mc : config.MediaConvert,
        config.Config_MediaConvert cfg = Some mc
        /\ (config.MediaConvert_AccessKeyID mc = ""
            \/ config.MediaConvert_SecretAccessKey mc = "")
        /\ mediaconvert.mediaConvertFactory NewSession cfg
           = Ok ((None, Some mediaconvert.errAWSInvalidConfig), []))
  \/ (exists (mc : config.MediaConvert)
             (made : option mediaconvert.awsProvider * option provider.error)
             (rest : list Call),
        config.Config_MediaConvert cfg = Some mc
        /\ config.MediaConvert_AccessKeyID mc <> ""
        /\ config.MediaConvert_SecretAccessKey mc <> ""
        /\ mediaconvert.mediaConvertFactory NewSession cfg
           = Ok (made,
                 CallNewStaticCredentials :: CallNewConfig :: CallWithCredentials
                 :: CallWithRegion :: CallNewSession :: rest)
        /\ (rest = [] \/ rest = [CallMediaConvertNew])).
Proof.
  unfold mediaconvert.mediaConvertFactory.
  destruct (config.Config_MediaConvert cfg) as [mc|];
    [|left; split; [reflexivity | eexists; reflexivity]].
  right.
  destruct (String.eqb_spec (config.MediaConvert_AccessKeyID mc) "") as [Hk|Hk];
    [left; exists mc; split; [reflexivity | split; [tauto | reflexivity]]|].
  destruct (String.eqb_spec (config.MediaConvert_SecretAccessKey mc) "") as [Hs|Hs];
    [left; exists mc; split; [reflexivity | split; [tauto | reflexivity]]|].
  right. cbn [orb]. unfold bindT, call, ret.
  destruct (NewSession _) as [sess [err|]];
    eexists mc, _, _; (split; [reflexivity|]); (split; [exact Hk|]);
    (split; [exact Hs|]); (split; [reflexivity|]); [left | right]; reflexivity.
Qed.

(** X18. An error of [session.NewSession], asked for the static
    credentials of the two keys in the configured region or in [us-east-1]
    when none is configured, is returned as it is, with no provider, and
    [mediaconvert.New] is not called. *)
Theorem mediaConvertFactory_session_error
    (NewSession : mediaconvert.awsConfig ->
                  option mediaconvert.Session * option provider.error)
    (cfg : config.Config) (mc : config.MediaConvert) (region : string)
    (sess : option mediaconvert.Session) (err : provider.error)
    (Hmc : config.Config_MediaConvert cfg = Some mc)
    (Hkey : config.MediaConvert_AccessKeyID mc <> "")
    (Hsecret : config.MediaConvert_SecretAccessKey mc <> "")
    (Hregion : (config.MediaConvert_Region mc = "" /\ region = "us-east-1")
               \/ (config.MediaConvert_Region mc <> ""
                   /\ region = config.MediaConvert_Region mc))
    (Hfail : NewSession
               {| mediaconvert.awsConfig_Credentials :=
                    Some {| mediaconvert.Credentials_id :=
                              config.MediaConvert_AccessKeyID mc;
                            mediaconvert.Credentials_secret :=
                              config.MediaConvert_SecretAccessKey mc;
                            mediaconvert.Credentials_token := "" |};
                  mediaconvert.awsConfig_Region := Some region |}
             = (sess, Some err)) :
  mediaconvert.mediaConvertFactory NewSession cfg
  = Ok ((None, Some err),
        [CallNewStaticCredentials; CallNewConfig; CallWithCredentials; CallWithRegion;
         CallNewSession]).
Proof.
  unfold mediaconvert.mediaConvertFactory. rewrite Hmc.
  apply String.eqb_neq in Hkey, Hsecret. rewrite Hkey, Hsecret. cbn [orb].
  unfold bindT, call, ret, mediaconvert.NewStaticCredentials,
    mediaconvert.WithRegion, mediaconvert.WithCredentials, mediaconvert.NewConfig.
  cbn [mediaconvert.awsConfig_Credentials mediaconvert.awsConfig_Region].
  destruct Hregion as [[Hnone ->] | [Hsome ->]].
  - rewrite Hnone in *. simpl. unfold mediaconvert.defaultAWSRegion.
    rewrite Hfail. reflexivity.
  - apply String.eqb_neq in Hsome. rewrite Hsome, Hfail. reflexivity.
Qed.

Lemma mediaConvertFactory_session_error_witness :
  mediaconvert.mediaConvertFactory samples.sessionFails samples.cfgAWS
  = Ok ((None, Some (provider.foreignError "session: could not load configuration")),
        [CallNewStaticCredentials; CallNewConfig; CallWithCredentials; CallWithRegion;
         CallNewSession]).
Proof.
  apply (mediaConvertFactory_session_error samples.sessionFails samples.cfgAWS
           {| config.MediaConvert_AccessKeyID := "AKID";
              config.MediaConvert_SecretAccessKey := "secret";
              config.MediaConvert_Region := "" |}
           "us-east-1" None);
    [reflexivity | discriminate | discriminate | left; split; reflexivity | reflexivity].
Defined.

(** X19. With both keys configured the session is opened with the static
    credentials of the two keys and an empty token, in the configured
    region, or in [us-east-1] when no region is configured; when that
    succeeds, the provider wraps the session and keeps the Media Convert
    section, after the six calls [NewStaticCredentials], [aws.NewConfig],
    [WithCredentials], [WithRegion], [session.NewSession] and
    [mediaconvert.New]. *)
Theorem mediaConvertFactory_region
    (NewSession : mediaconvert.awsConfig ->
                  option mediaconvert.Session * option provider.error)
    (cfg : config.Config) (mc : config.MediaConvert) (region : string)
    (sess : option mediaconvert.Session)
    (Hmc : config.Config_MediaConvert cfg = Some mc)
    (Hkey : config.MediaConvert_AccessKeyID mc <> "")
    (Hsecret : config.MediaConvert_SecretAccessKey mc <> "")
    (Hregion : (config.MediaConvert_Region mc = "" /\ region = "us-east-1")
               \/ (config.MediaConvert_Region mc <> ""
                   /\ region = config.MediaConvert_Region mc))
    (Hopen : NewSession
               {| mediaconvert.awsConfig_Credentials :=
                    Some {| mediaconvert.Credentials_id :=
                              config.MediaConvert_AccessKeyID mc;
                            mediaconvert.Credentials_secret :=
                              config.MediaConvert_SecretAccessKey mc;
                            mediaconvert.Credentials_token := "" |};
                  mediaconvert.awsConfig_Region := Some region |}
             = (sess, None)) :
  mediaconvert.mediaConvertFactory NewSession cfg
  = Ok ((Some {| mediaconvert.c := {| mediaconvert.api_session := sess |};
                 mediaconvert.config := Some mc |},
         None),
        [CallNewStaticCredentials; CallNewConfig; CallWithCredentials; CallWithRegion;
         CallNewSession; CallMediaConvertNew]).
Proof.
  unfold mediaconvert.mediaConvertFactory. rewrite Hmc.
  apply String.eqb_neq in Hkey, Hsecret. rewrite Hkey, Hsecret. cbn [orb].
  unfold bindT, call, ret, mediaconvert.NewStaticCredentials,
    mediaconvert.WithRegion, mediaconvert.WithCredentials, mediaconvert.NewConfig.
  cbn [mediaconvert.awsConfig_Credentials mediaconvert.awsConfig_Region].
  destruct Hregion as [[Hnone ->] | [Hsome ->]].
  - rewrite Hnone in *. simpl. unfold mediaconvert.defaultAWSRegion.
    rewrite Hopen. reflexivity.
  - apply String.eqb_neq in Hsome. rewrite Hsome, Hopen. reflexivity.
Qed.

Lemma mediaConvertFactory_region_witness :
  mediaconvert.mediaConvertFactory samples.sessionOpens samples.cfgAWS
  = Ok ((Some {| mediaconvert.c :=
                   {| mediaconvert.api_session :=
                        Some {| mediaconvert.Session_Config :=
                                  {| mediaconvert.awsConfig_Credentials :=
                                       Some {| mediaconvert.Credentials_id := "AKID";
                                               mediaconvert.Credentials_secret := "secret";
                                               mediaconvert.Credentials_token := "" |};
                                     mediaconvert.awsConfig_Region :=
                                       Some "us-east-1" |} |} |};
                 mediaconvert.config := config.Config_MediaConvert samples.cfgAWS |},
         None),
        [CallNewStaticCredentials; CallNewConfig; CallWithCredentials; CallWithRegion;
         CallNewSession; CallMediaConvertNew]).
Proof.
  apply (mediaConvertFactory_region samples.sessionOpens samples.cfgAWS
           {| config.MediaConvert_AccessKeyID := "AKID";
              config.MediaConvert_SecretAccessKey := "secret";
              config.MediaConvert_Region := "" |}
           "us-east-1");
    [reflexivity | discriminate | discriminate | left; split; reflexivity | reflexivity].
Defined.

(** ** More on the status detail *)

(** X20. A job status returned by a poll comes without an error, names the
    provider, and carries a detail map whose [status] entry is the native
    status string, unchanged, that the canonical status was computed
    from. *)
Theorem JobStatus_status_from_detail
    (mapLower : string -> string) (backend : elementalconductor.Backend)
    (p : elementalconductor.elementalConductorProvider) (id : string)
    (js : provider.JobStatus) (err : option provider.error)
    (Hret : elementalconductor.JobStatus mapLower backend p id = Ok (Some js, err)) :
  err = None
  /\ provider.JobStatus_ProviderName js = "elementalconductor"
  /\ exists (detail : gmap string provider.Value) (native : string),
       provider.JobStatus_ProviderStatus js = Some detail
       /\ detail !! "status" = Some (provider.VString native)
       /\ provider.JobStatus_Status js = elementalconductor.statusMap mapLower p native.
Proof.
  unfold elementalconductor.JobStatus in Hret.
  destruct (elementalconductor.GetJob _ _ _) as [[resp|] [e|]]; try discriminate.
  injection Hret as <- <-.
  split; [reflexivity|]. split; [reflexivity|].
  exists (elementalconductor.providerStatusOf resp), (wire.Job_Status resp).
  split; [reflexivity|]. split; [|reflexivity].
  apply (providerStatusOf_lookup resp).
Qed.

Lemma JobStatus_status_from_detail_witness :
  exists (detail : gmap string provider.Value) (native : string),
    detail !! "status" = Some (provider.VString native)
    /\ provider.StatusFinished
       = elementalconductor.statusMap (fun s => s) samples.p native.
Proof.
  destruct (JobStatus_status_from_detail (fun s => s) samples.accepting samples.p "7"
              {| provider.JobStatus_ProviderName := "elementalconductor";
                 provider.JobStatus_ProviderJobID := "/jobs/7";
                 provider.JobStatus_Status := provider.StatusFinished;
                 provider.JobStatus_ProviderStatus :=
                   Some (elementalconductor.providerStatusOf samples.finishedJob) |}
              None eq_refl)
    as (_ & _ & detail & native & _ & Hstatus & Hmap).
  exists detail, native. split; [exact Hstatus | exact Hmap].
Defined.
